(** * TaskWhisper backend: the reminder lifecycle of [server.js]

    A shallow embedding of the Express handlers of the TaskWhisper backend
    and the properties of its reminder lifecycle: the due scan, the
    follow-up scan, rescheduling, phone normalisation and the mock branch
    of the transcription endpoint.

    Conventions of the embedding.
    - A nullable JavaScript value is an [option]; JavaScript truthiness of
      a nullable string is [truthy] ([null], [undefined] and the empty
      string are falsy).
    - An instant is a [Z], the milliseconds since the epoch that
      [Date.getTime] returns; [toISOString] is a bijection on those, so a
      comparison of two ISO timestamps by the store is a comparison of the
      two numbers.
    - The table [reminders] is a finite map from the primary key [id] to
      the other columns of the row.
    - The e-mail, SMS and speech-to-text providers are oracles: a call
      either returns or throws an [Error] with a message. *)

From Stdlib Require Import ZArith String Ascii List Bool Lia.
From stdpp Require Import base gmap strings list fin_maps.

Open Scope string_scope.
Open Scope Z_scope.

(** ** JavaScript values *)

Module Js.

(** [!!v] for a nullable string. *)
Definition truthy (v : option string) : bool :=
  match v with
  | None => false
  | Some EmptyString => false
  | Some (String _ _) => true
  end.

(** [v || d] for a nullable string. *)
Definition or_else (v : option string) (d : string) : string :=
  match v with
  | Some (String c s) => String c s
  | _ => d
  end.

(** [arr.includes(x)] on an array of strings. *)
Fixpoint includes (x : string) (arr : list string) : bool :=
  match arr with
  | [] => false
  | y :: rest => if String.eqb y x then true else includes x rest
  end.

(** [s.startsWith('1')]. *)
Definition startsWith1 (s : string) : bool :=
  match s with
  | String c _ => Ascii.eqb c "1"%char
  | EmptyString => false
  end.

(** The class [\d] of a regular expression without the [u] flag: the ten
    ASCII digits. *)
Definition is_digit (c : ascii) : bool :=
  ((48 <=? nat_of_ascii c) && (nat_of_ascii c <=? 57))%nat.

(** [s.replace(/\D/g, '')]: every character outside [\d] is deleted. *)
Fixpoint strip_non_digits (s : string) : string :=
  match s with
  | EmptyString => EmptyString
  | String c rest =>
      if is_digit c then String c (strip_non_digits rest)
      else strip_non_digits rest
  end.

End Js.

(** ** Phone normalisation (the local function [formatPhone] of the due
    scan) *)

(** [formatPhone]: [if (!phone) return ''], then strip, then the country
    code, then the plus sign. *)
Definition formatPhone (phone : option string) : string :=
  if negb (Js.truthy phone) then ""
  else
    let digits := Js.strip_non_digits (Js.or_else phone "") in
    let withCountryCode :=
      if Js.startsWith1 digits then digits else "1" +:+ digits in
    "+" +:+ withCountryCode.



(** ** Data model *)

(** A task as the language model returns it and the client stores it. *)
Record Task := mkTask {
  description : string;
  suggestedDate : string;
  priority : string;
  category : string
}.

(** A row of the table [reminders], the primary key [id] apart (the key
    of the row in the store). The columns are those of the [insert] of
    [POST /api/reminders]. *)
Record Reminder := mkReminder {
  email : option string;
  phone_number : option string;
  transcript : string;
  tasks : option (list Task);
  email_draft : option string;
  scheduled_for : Z;
  notification_methods : option (list string);
  sent : bool;
  completed : bool;
  last_followup_sent : option Z;
  followup_count : option Z
}.

(** A row as a query returns it: [reminder.id] and the other columns. *)
Definition Row : Type := string * Reminder.

(** ** The store *)

Module Store.

(** The columns the handlers filter on. *)
Inductive Column := c_sent | c_completed | c_scheduled_for | c_last_followup_sent.

Inductive Cell :=
| Null
| Boolean (b : bool)
| Timestamp (t : Z).

Definition cell (c : Column) (r : Reminder) : Cell :=
  match c with
  | c_sent => Boolean (sent r)
  | c_completed => Boolean (completed r)
  | c_scheduled_for => Timestamp (scheduled_for r)
  | c_last_followup_sent =>
      match last_followup_sent r with
      | Some t => Timestamp t
      | None => Null
      end
  end.

(** The filters of the query builder: [.eq], [.lte], and [.or] over
    [is.null] and [lt]. *)
Inductive Filter :=
| eq (c : Column) (v : Cell)
| lte (c : Column) (v : Cell)
| lt (c : Column) (v : Cell)
| is_null (c : Column)
| or (f g : Filter).

(** SQL comparison: a comparison with [NULL], or between two types, is
    not true. *)
Definition cell_eqb (a b : Cell) : bool :=
  match a, b with
  | Boolean x, Boolean y => Bool.eqb x y
  | Timestamp x, Timestamp y => x =? y
  | _, _ => false
  end.

Definition cell_leb (a b : Cell) : bool :=
  match a, b with
  | Timestamp x, Timestamp y => x <=? y
  | _, _ => false
  end.

Definition cell_ltb (a b : Cell) : bool :=
  match a, b with
  | Timestamp x, Timestamp y => x <? y
  | _, _ => false
  end.

Fixpoint holds (f : Filter) (r : Reminder) : bool :=
  match f with
  | eq c v => cell_eqb (cell c r) v
  | lte c v => cell_leb (cell c r) v
  | lt c v => cell_ltb (cell c r) v
  | is_null c => match cell c r with Null => true | _ => false end
  | or f g => holds f r || holds g r
  end.

(** Chained filters are a conjunction. *)
Definition matches (q : list Filter) (r : Reminder) : bool :=
  forallb (fun f => holds f r) q.

(** [.from('reminders').select('*')] under the filters [q]. *)
Definition select (q : list Filter) (db : gmap string Reminder) : list Row :=
  List.filter (fun row => matches q (snd row)) (map_to_list db).

(** [.from('reminders').update(patch).eq('id', id)]: the row of that key,
    when there is one, is patched. *)
Definition update (patch : Reminder -> Reminder) (id : string)
    (db : gmap string Reminder) : gmap string Reminder :=
  alter patch id db.

End Store.

(** The patches of the three [update] calls and of [complete]. *)
Definition set_sent (r : Reminder) : Reminder :=
  mkReminder (email r) (phone_number r) (transcript r) (tasks r)
    (email_draft r) (scheduled_for r) (notification_methods r)
    true (completed r) (last_followup_sent r) (followup_count r).

Definition set_completed (r : Reminder) : Reminder :=
  mkReminder (email r) (phone_number r) (transcript r) (tasks r)
    (email_draft r) (scheduled_for r) (notification_methods r)
    (sent r) true (last_followup_sent r) (followup_count r).

Definition set_followup (now count : Z) (r : Reminder) : Reminder :=
  mkReminder (email r) (phone_number r) (transcript r) (tasks r)
    (email_draft r) (scheduled_for r) (notification_methods r)
    (sent r) (completed r) (Some now) (Some count).

Definition set_rescheduled (scheduledFor : Z) (r : Reminder) : Reminder :=
  mkReminder (email r) (phone_number r) (transcript r) (tasks r)
    (email_draft r) scheduledFor (notification_methods r)
    false (completed r) None (Some 0).

(** ** Configuration *)

(** The variables of [process.env] the server reads. *)
Record Env := mkEnv {
  OPENAI_API_KEY : option string;
  ANTHROPIC_API_KEY : option string;
  RESEND_API_KEY : option string;
  TWILIO_ACCOUNT_SID : option string;
  TWILIO_AUTH_TOKEN : option string;
  TWILIO_PHONE_NUMBER : option string;
  SUPABASE_URL : option string;
  SUPABASE_KEY : option string;
  FRONTEND_URL : option string
}.

(** The three clients made at start-up are [null] unless their variables
    are set: [supabase], [twilioClient] and [resend]. *)
Definition supabase (env : Env) : bool :=
  Js.truthy (SUPABASE_URL env) && Js.truthy (SUPABASE_KEY env).

Definition twilioClient (env : Env) : bool :=
  Js.truthy (TWILIO_ACCOUNT_SID env) && Js.truthy (TWILIO_AUTH_TOKEN env).

Definition resend (env : Env) : bool :=
  Js.truthy (RESEND_API_KEY env).

(** ** Messages and providers *)

(** The two HTML templates, by their holes. *)
Inductive Html :=
| ReminderHtml (lead : string) (cards : list (string * string * string))
| FollowUpHtml (completeUrl rescheduleUrl : string) (cards : list string).

Record EmailMsg := mkEmail {
  em_from : string;
  em_to : option string;
  em_subject : string;
  em_html : Html
}.

Record SmsMsg := mkSms {
  sms_body : string;
  sms_from : option string;
  sms_to : string
}.

(** What a provider call did. *)
Inductive Outcome :=
| Delivered
| Threw (message : string).

(** The provider calls of a run, oldest first. *)
Inductive Event :=
| EmailCall (m : EmailMsg) (o : Outcome)
| SmsCall (m : SmsMsg) (o : Outcome).

(** The world outside the server: what each provider does with a message,
    given the calls made so far, whether the store answers each of the
    two [select] queries of the scan with an error, and the message of
    the error [.single()] gives when no row matches. *)
Record World := mkWorld {
  email_provider : list Event -> EmailMsg -> Outcome;
  sms_provider : list Event -> SmsMsg -> Outcome;
  due_query_error : option string;
  followup_query_error : option string;
  no_row_error : string
}.

(** ** State and exceptions *)

(** What a handler can change: the table and the provider calls made.
    The value an [update] without [select] returns is dropped by the
    handlers, so an [update] has no error path of its own here: it is
    applied to the table. *)
Record State := mkState {
  db : gmap string Reminder;
  calls : list Event
}.

Inductive Res (A : Type) :=
| Ok (a : A)
| Throw (message : string).
Arguments Ok {A} a.
Arguments Throw {A} message.

(** A computation with state that may throw; the state survives a throw,
    as the effects of a JavaScript [try] block do. *)
Definition M (A : Type) : Type := State -> Res A * State.

Definition ret {A} (a : A) : M A := fun s => (Ok a, s).

Definition bind {A B} (c : M A) (k : A -> M B) : M B :=
  fun s =>
    match c s with
    | (Ok a, s1) => k a s1
    | (Throw e, s1) => (Throw e, s1)
    end.

Definition throw {A} (e : string) : M A := fun s => (Throw e, s).

(** A computation with state that does not throw: a [try] block with its
    [catch], or a loop of such blocks. *)
Definition T (A : Type) : Type := State -> A * State.

Definition lift {A} (c : T A) : M A :=
  fun s => let '(a, s1) := c s in (Ok a, s1).

(** [try { c } catch (error) { handler(error.message) }]. *)
Definition try_catch {A} (c : M A) (handler : string -> T A) : T A :=
  fun s =>
    match c s with
    | (Ok a, s1) => (a, s1)
    | (Throw e, s1) => handler e s1
    end.

Definition when (b : bool) (c : M unit) : M unit :=
  if b then c else ret tt.

Notation "'do!' c 'then' k" := (bind c (fun _ => k))
  (at level 10, c at level 100, k at level 200).

(** [await resend.emails.send(m)]. *)
Definition resend_emails_send (w : World) (m : EmailMsg) : M unit :=
  fun s =>
    let o := email_provider w (calls s) m in
    let s1 := mkState (db s) (calls s ++ [EmailCall m o])%list in
    match o with
    | Delivered => (Ok tt, s1)
    | Threw e => (Throw e, s1)
    end.

(** [await twilioClient.messages.create(m)]. *)
Definition twilio_messages_create (w : World) (m : SmsMsg) : M unit :=
  fun s =>
    let o := sms_provider w (calls s) m in
    let s1 := mkState (db s) (calls s ++ [SmsCall m o])%list in
    match o with
    | Delivered => (Ok tt, s1)
    | Threw e => (Throw e, s1)
    end.

(** [await supabase.from('reminders').update(patch).eq('id', id)], the
    value dropped. *)
Definition supabase_update (patch : Reminder -> Reminder) (id : string) : M unit :=
  fun s => (Ok tt, mkState (Store.update patch id (db s)) (calls s)).

(** ** The scan of due reminders and follow-ups: [POST /api/reminders/send-due] *)

Definition nl : string := String (ascii_of_nat 10) EmptyString.

(** An element of [results]. *)
Record ResultEntry := mkResult {
  res_id : string;
  res_status : string;
  res_error : option string
}.

(** What a handler answers: [{ success: true, processed, results }],
    [{ success: true, reminder }], or [{ success: false, error }] under
    the status [code]. *)
Inductive Response :=
| Report (processed : nat) (results : list ResultEntry)
| ReminderJson (reminder : Row)
| Failure (code : Z) (error : string).

(** [reminder.tasks || []]. *)
Definition tasks_of (reminder : Reminder) : list Task :=
  default [] (tasks reminder).

(** [reminder.notification_methods || ['email']]: an array, also an empty
    one, is truthy. *)
Definition methods_of (reminder : Reminder) : list string :=
  default ["email"] (notification_methods reminder).

Definition reminder_email (reminder : Reminder) : EmailMsg :=
  mkEmail "TaskWhisper <noreply@jaypwadhwani.com>" (email reminder)
    "TaskWhisper Reminder - Your Scheduled Tasks"
    (ReminderHtml (Js.or_else (email_draft reminder) "Here are your tasks:")
       (map (fun task => (description task, suggestedDate task, priority task))
            (tasks_of reminder))).

Definition smsBody (reminder : Reminder) : string :=
  let tasksText :=
    String.concat nl (map (fun t => "• " +:+ description t) (tasks_of reminder)) in
  "🎤 TaskWhisper Reminder" +:+ nl +:+ nl +:+
  Js.or_else (email_draft reminder) "Your tasks:" +:+ nl +:+ nl +:+
  tasksText +:+ nl +:+ nl +:+ "Sent from TaskWhisper".

Definition reminder_sms (env : Env) (reminder : Reminder) : SmsMsg :=
  mkSms (smsBody reminder) (TWILIO_PHONE_NUMBER env)
    (formatPhone (phone_number reminder)).

Definition wants_email (reminder : Reminder) : bool :=
  Js.includes "email" (methods_of reminder) && Js.truthy (email reminder).

Definition wants_sms (env : Env) (reminder : Reminder) : bool :=
  Js.includes "sms" (methods_of reminder) && Js.truthy (phone_number reminder)
  && twilioClient env.

(** The [try] block of the due loop: e-mail, SMS, mark as sent. *)
Definition deliver_due (env : Env) (w : World) (row : Row) : M unit :=
  let '(id, reminder) := row in
  do! when (wants_email reminder)
        (resend_emails_send w (reminder_email reminder)) then
  do! when (wants_sms env reminder)
        (twilio_messages_create w (reminder_sms env reminder)) then
  supabase_update set_sent id.

(** One iteration of the due loop on the array [results]. *)
Definition due_iteration (env : Env) (w : World) (results : list ResultEntry)
    (row : Row) : T (list ResultEntry) :=
  try_catch
    (do! deliver_due env w row then
     ret (results ++ [mkResult (fst row) "sent" None])%list)
    (fun emailError s =>
       ((results ++ [mkResult (fst row) "failed" (Some emailError)])%list, s)).

Fixpoint due_loop (env : Env) (w : World) (dueReminders : list Row)
    (results : list ResultEntry) : T (list ResultEntry) :=
  fun s =>
    match dueReminders with
    | [] => (results, s)
    | row :: rest =>
        let '(results1, s1) := due_iteration env w results row s in
        due_loop env w rest results1 s1
    end.

Definition followUpDelay : Z := 24 * 60 * 60 * 1000.

Definition followUpCutoff (now : Z) : Z := now - followUpDelay.

Definition followup_email (env : Env) (row : Row) : EmailMsg :=
  let '(id, reminder) := row in
  let baseUrl := Js.or_else (FRONTEND_URL env) "https://www.jaypwadhwani.com" in
  let completeUrl := baseUrl +:+ "/complete.html?id=" +:+ id in
  let rescheduleUrl := baseUrl +:+ "/reschedule.html?id=" +:+ id in
  mkEmail "TaskWhisper <noreply@jaypwadhwani.com>" (email reminder)
    "Did you complete your task?"
    (FollowUpHtml completeUrl rescheduleUrl (map description (tasks_of reminder))).

(** The [try] block of the follow-up loop: e-mail, then the tracking
    columns, from the row as the query returned it. *)
Definition deliver_followup (env : Env) (w : World) (now : Z) (row : Row) : M unit :=
  do! resend_emails_send w (followup_email env row) then
  supabase_update
    (set_followup now (default 0 (followup_count (snd row)) + 1)) (fst row).

Definition followup_iteration (env : Env) (w : World) (now : Z)
    (results : list ResultEntry) (row : Row) : T (list ResultEntry) :=
  try_catch
    (do! deliver_followup env w now row then
     ret (results ++ [mkResult (fst row) "followup_sent" None])%list)
    (fun followUpError s =>
       ((results ++ [mkResult (fst row) "followup_failed" (Some followUpError)])%list, s)).

Fixpoint followup_loop (env : Env) (w : World) (now : Z)
    (followUpReminders : list Row) (results : list ResultEntry)
    : T (list ResultEntry) :=
  fun s =>
    match followUpReminders with
    | [] => (results, s)
    | row :: rest =>
        let '(results1, s1) := followup_iteration env w now results row s in
        followup_loop env w now rest results1 s1
    end.

(** The two queries of the scan. *)
Definition due_query (now : Z) : list Store.Filter :=
  [Store.eq Store.c_sent (Store.Boolean false);
   Store.lte Store.c_scheduled_for (Store.Timestamp now)].

Definition followup_query (now : Z) : list Store.Filter :=
  [Store.eq Store.c_sent (Store.Boolean true);
   Store.eq Store.c_completed (Store.Boolean false);
   Store.or (Store.is_null Store.c_last_followup_sent)
            (Store.lt Store.c_last_followup_sent (Store.Timestamp (followUpCutoff now)));
   Store.lte Store.c_scheduled_for (Store.Timestamp (followUpCutoff now))].

(** What a [select] resolves to: [{ data, error }]. *)
Inductive Answer :=
| Data (rows : list Row)
| Error (message : string).

Definition supabase_select (fault : option string) (q : list Store.Filter)
    : T Answer :=
  fun s =>
    match fault with
    | Some e => (Error e, s)
    | None => (Data (Store.select q (db s)), s)
    end.

(** The follow-up part: its query error is logged and nothing else. *)
Definition followup_scan (env : Env) (w : World) (now : Z)
    (results : list ResultEntry) : T (list ResultEntry) :=
  fun s =>
    match supabase_select (followup_query_error w) (followup_query now) s with
    | (Error _, s1) => (results, s1)
    | (Data followUpReminders, s1) =>
        followup_loop env w now followUpReminders results s1
    end.

(** The [try] block of the handler. *)
Definition send_due_body (env : Env) (w : World) (now : Z) : M Response :=
  if negb (supabase env) || negb (resend env)
  then ret (Failure 500 "Services not configured")
  else
    bind (lift (supabase_select (due_query_error w) (due_query now)))
      (fun answer =>
         match answer with
         | Error e => throw e
         | Data dueReminders =>
             bind (lift (due_loop env w dueReminders [])) (fun results =>
             bind (lift (followup_scan env w now results)) (fun results =>
             ret (Report (length results) results)))
         end).

(** The handler, with its outer [catch]. *)
Definition send_due (env : Env) (w : World) (now : Z) : T Response :=
  try_catch (send_due_body env w now) (fun e s => (Failure 500 e, s)).

(** ** Rescheduling and completing: [POST /api/reminders/:id/reschedule]
    and [POST /api/reminders/:id/complete] *)

(** What [.update(patch).eq('id', id).select().single()] resolves to. *)
Inductive Single :=
| One (row : Row)
| NoRow (message : string).

Definition supabase_update_single (w : World) (patch : Reminder -> Reminder)
    (id : string) : T Single :=
  fun s =>
    match db s !! id with
    | Some r =>
        (One (id, patch r), mkState (Store.update patch id (db s)) (calls s))
    | None => (NoRow (no_row_error w), s)
    end.

Definition patch_handler (env : Env) (w : World)
    (patch : Reminder -> Reminder) (id : string) : T Response :=
  try_catch
    (if negb (supabase env)
     then ret (Failure 500 "Database not configured")
     else
       bind (lift (supabase_update_single w patch id)) (fun answer =>
         match answer with
         | NoRow e => throw e
         | One data => ret (ReminderJson data)
         end))
    (fun e s => (Failure 500 e, s)).

Definition reschedule (env : Env) (w : World) (id : string) (scheduledFor : Z)
    : T Response :=
  patch_handler env w (set_rescheduled scheduledFor) id.

Definition complete (env : Env) (w : World) (id : string) : T Response :=
  patch_handler env w set_completed id.

(** ** Health and transcription: [GET /api/health] and
    [POST /api/transcribe] *)

Record Health := mkHealth {
  whisperAvailable : bool;
  claudeAvailable : bool;
  emailAvailable : bool
}.

Definition health (env : Env) : Health :=
  mkHealth (Js.truthy (OPENAI_API_KEY env))
           (Js.truthy (ANTHROPIC_API_KEY env))
           (Js.truthy (RESEND_API_KEY env)).

(** [req.file], as the upload middleware leaves it. *)
Record UploadedFile := mkFile {
  path : string;
  originalname : string;
  size : Z
}.

Inductive TranscribeResponse :=
| Transcript (transcript : string) (mock : bool)
| BadRequest (error : string)
| TranscriptionFailed (details : string).

(** The file system is the set of the paths that exist. *)
Definition existsSync (p : string) (fs : gset string) : bool :=
  bool_decide (p ∈ fs).

Definition unlinkSync (p : string) (fs : gset string) : Res unit * gset string :=
  if existsSync p fs then (Ok tt, fs ∖ {[p]})
  else (Throw ("ENOENT: no such file or directory, unlink " +:+ p), fs).

Definition renameSync (old new : string) (fs : gset string)
    : Res unit * gset string :=
  if existsSync old fs then (Ok tt, (fs ∖ {[old]}) ∪ {[new]})
  else (Throw ("ENOENT: no such file or directory, rename " +:+ old), fs).

Definition placeholder_key : string := "your-openai-api-key-here".

Definition mockTranscript : string :=
  "This is a test transcription. Configure your OpenAI API key to enable real Whisper transcription.".

(** The condition of the mock branch:
    [!process.env.OPENAI_API_KEY || process.env.OPENAI_API_KEY === '...']. *)
Definition no_whisper_key (env : Env) : bool :=
  negb (Js.truthy (OPENAI_API_KEY env))
  || match OPENAI_API_KEY env with
     | Some k => String.eqb k placeholder_key
     | None => false
     end.

(** The [catch] block: remove whichever of the two files is left. *)
Definition transcribe_catch (renamedPath : option string) (file : UploadedFile)
    (message : string) (fs : gset string) : TranscribeResponse * gset string :=
  let cleanup :=
    match renamedPath with
    | Some p =>
        if Js.truthy (Some p) && existsSync p fs then unlinkSync p fs
        else if existsSync (path file) fs then unlinkSync (path file) fs
        else (Ok tt, fs)
    | None =>
        if existsSync (path file) fs then unlinkSync (path file) fs
        else (Ok tt, fs)
    end in
  (TranscriptionFailed message, snd cleanup).

(** The handler; [whisper] is the speech-to-text call on the renamed
    file. *)
Definition transcribe (env : Env) (whisper : string -> Res string)
    (file : option UploadedFile) (fs : gset string)
    : TranscribeResponse * gset string :=
  match file with
  | None => (BadRequest "No audio file provided", fs)
  | Some f =>
      if no_whisper_key env then
        match unlinkSync (path f) fs with
        | (Ok _, fs1) => (Transcript mockTranscript true, fs1)
        | (Throw e, fs1) => transcribe_catch None f e fs1
        end
      else
        let renamedPath := path f +:+ ".webm" in
        match renameSync (path f) renamedPath fs with
        | (Throw e, fs1) => transcribe_catch (Some renamedPath) f e fs1
        | (Ok _, fs1) =>
            match whisper renamedPath with
            | Throw e => transcribe_catch (Some renamedPath) f e fs1
            | Ok text =>
                match unlinkSync renamedPath fs1 with
                | (Throw e, fs2) => transcribe_catch (Some renamedPath) f e fs2
                | (Ok _, fs2) => (Transcript text false, fs2)
                end
            end
        end
  end.

(** ** The predicates of the specification *)

(** The selection predicate in the words of the specification, with the
    cut-off 24 hours before [now]. *)
Definition hours (n : Z) : Z := n * 3600 * 1000.

Definition followup_eligible_spec (now : Z) (r : Reminder) : Prop :=
  sent r = true
  /\ completed r = false
  /\ (last_followup_sent r = None
      \/ exists t, last_followup_sent r = Some t /\ t < now - hours 24)
  /\ scheduled_for r <= now - hours 24.

(** The state of the table and the array [results] when the due loop of
    a scan at [now] ends. *)
Definition after_due_scan (env : Env) (w : World) (now : Z) : T (list ResultEntry) :=
  fun s => due_loop env w (Store.select (due_query now) (db s)) [] s.

(** The two shapes of an element of [results]: with no [error] key, or
    with the message of what was caught. *)
Definition entry_ok (status : string) (e : ResultEntry) : Prop :=
  res_status e = status /\ res_error e = None.

Definition entry_failed (status : string) (e : ResultEntry) : Prop :=
  res_status e = status /\ exists message, res_error e = Some message.

Definition due_entry (e : ResultEntry) : Prop :=
  entry_ok "sent" e \/ entry_failed "failed" e.

Definition followup_entry (e : ResultEntry) : Prop :=
  entry_ok "followup_sent" e \/ entry_failed "followup_failed" e.

(** ** Sample configurations, worlds and rows *)

Module Examples.

(** Every client configured. *)
Definition env_full : Env :=
  mkEnv (Some "sk-live") (Some "sk-ant") (Some "re_live") (Some "AC0001")
    (Some "token") (Some "+15550001111") (Some "https://db.example.com")
    (Some "service-role") None.


(** Every provider delivers, every query answers. *)
Definition world_ok : World :=
  mkWorld (fun _ _ => Delivered) (fun _ _ => Delivered) None None
    "no row returned".


(** The store fails the due query. *)
Definition world_due_query_down : World :=
  mkWorld (fun _ _ => Delivered) (fun _ _ => Delivered)
    (Some "store unreachable") None "no row returned".

(** The store answers the due query and fails the follow-up query. *)
Definition world_followup_query_down : World :=
  mkWorld (fun _ _ => Delivered) (fun _ _ => Delivered) None
    (Some "store unreachable") "no row returned".

Definition call_doctor : Task :=
  mkTask "Call the doctor" "tomorrow 2pm" "urgent" "health".

(** Due at instant 1000, by e-mail. *)
Definition email_reminder : Reminder :=
  mkReminder (Some "ann@example.com") None "call the doctor tomorrow"
    (Some [call_doctor]) (Some "Do not forget") 1000 (Some ["email"])
    false false None (Some 0).



(** Due and sent at instant 1000, not completed, followed up once, a
    day later. *)
Definition sent_reminder : Reminder :=
  mkReminder (Some "ann@example.com") None "call the doctor tomorrow"
    (Some [call_doctor]) (Some "Do not forget") 1000 (Some ["email"])
    true false (Some (1000 + followUpDelay)) (Some 1).

Definition store_of (id : string) (r : Reminder) : State :=
  mkState {[id := r]} [].

End Examples.

(** Unfolding a [try] block down to its provider calls. *)
Ltac unfold_block :=
  unfold due_iteration, followup_iteration, deliver_due, deliver_followup,
    try_catch, bind, when, ret, resend_emails_send, twilio_messages_create,
    supabase_update;
  cbv beta iota zeta; cbn [calls db fst snd].

(** ** Saving a reminder: [POST /api/reminders] *)

Module Request.

(** The fields the handler reads from [req.body]. *)
Record Body := mkBody {
  email : option string;
  phoneNumber : option string;
  transcript : string;
  tasks : option (list Task);
  emailDraft : option string;
  scheduledFor : Z;
  notificationMethods : option (list string)
}.

End Request.

(** The object given to [insert]: [phoneNumber || null],
    [notificationMethods || ['email']], and the five initial columns. *)
Definition inserted_row (body : Request.Body) : Reminder :=
  mkReminder (Request.email body)
    (if Js.truthy (Request.phoneNumber body) then Request.phoneNumber body else None)
    (Request.transcript body) (Request.tasks body) (Request.emailDraft body)
    (Request.scheduledFor body)
    (Some (default ["email"] (Request.notificationMethods body)))
    false false None (Some 0).

(** [.insert(row).select().single()]: the store answers with an error, or
    stores the row under the key [id] it generates and answers with it. *)
Definition supabase_insert_single (fault : option string) (id : string)
    (row : Reminder) : T Single :=
  fun s =>
    match fault with
    | Some e => (NoRow e, s)
    | None => (One (id, row), mkState (<[id := row]> (db s)) (calls s))
    end.

(** The handler; [fault] and [id] are the store's: its error, if any, and
    the key it generates. *)
Definition create_reminder (env : Env) (fault : option string) (id : string)
    (body : Request.Body) : T Response :=
  try_catch
    (if negb (supabase env)
     then ret (Failure 500 "Database not configured")
     else
       bind (lift (supabase_insert_single fault id (inserted_row body)))
         (fun answer =>
            match answer with
            | NoRow e => throw e
            | One data => ret (ReminderJson data)
            end))
    (fun e s => (Failure 500 e, s)).

(** ** The code fences of the model's answer: [POST /api/analyze-memo] *)

Module Fence.

Definition tick : ascii := "`"%char.

Definition fence : string := String tick (String tick (String tick "")).

Definition json_fence : string := fence +:+ "json".

(** [s.startsWith(pat)]. *)
Fixpoint starts_with (pat s : string) : bool :=
  match pat with
  | EmptyString => true
  | String a pat' =>
      match s with
      | EmptyString => false
      | String b s' => Ascii.eqb a b && starts_with pat' s'
      end
  end.

(** The number of characters the pattern [pat] followed by an optional
    line feed matches at the head of [s]; 0 when it does not match. The
    optional line feed is greedy. *)
Definition match_at (pat s : string) : nat :=
  if starts_with pat s then
    match String.get (String.length pat) s with
    | Some c => if Ascii.eqb c (ascii_of_nat 10)
                then S (String.length pat) else String.length pat
    | None => String.length pat
    end
  else 0%nat.

(** [s.replace(/pat\n?/g, '')] for a literal [pat]: the matches are taken
    from left to right and do not overlap; [skip] counts the characters
    of the current match that are still to be dropped. *)
Fixpoint remove_matches (pat : string) (skip : nat) (s : string) : string :=
  match s with
  | EmptyString => EmptyString
  | String c rest =>
      match skip with
      | S n => remove_matches pat n rest
      | O =>
          match match_at pat s with
          | O => String c (remove_matches pat O rest)
          | S n => remove_matches pat n rest
          end
      end
  end.

(** The two chained [replace] calls on the trimmed answer. *)
Definition strip_fences (cleanedResponse : string) : string :=
  remove_matches fence 0 (remove_matches json_fence 0 cleanedResponse).

(** [s.includes(pat)] for a pattern that is not empty. *)
Fixpoint occurs (pat s : string) : bool :=
  match s with
  | EmptyString => false
  | String _ rest => starts_with pat s || occurs pat rest
  end.

(** Whether three backticks in a row occur in the text. *)
Definition has_fence (s : string) : bool := occurs fence s.

(** Whether the character [c] is absent from the text. *)
Fixpoint lacks (c : ascii) (s : string) : bool :=
  match s with
  | EmptyString => true
  | String a rest => negb (Ascii.eqb a c) && lacks c rest
  end.

End Fence.

(** ** What the scan leaves of a row *)

(** The columns no iteration of the scan writes. *)
Definition same_fixed_columns (r r' : Reminder) : Prop :=
  email r' = email r
  /\ phone_number r' = phone_number r
  /\ transcript r' = transcript r
  /\ tasks r' = tasks r
  /\ email_draft r' = email_draft r
  /\ scheduled_for r' = scheduled_for r
  /\ notification_methods r' = notification_methods r
  /\ completed r' = completed r.

(** A row before and after a scan: the fixed columns are equal and a row
    marked sent stays so. *)
Definition scan_keeps (r r' : Reminder) : Prop :=
  same_fixed_columns r r' /\ (sent r = true -> sent r' = true).

(** A row before and after the due loop: moreover the follow-up columns
    are equal. *)
Definition due_keeps (r r' : Reminder) : Prop :=
  scan_keeps r r'
  /\ last_followup_sent r' = last_followup_sent r
  /\ followup_count r' = followup_count r.

(** Two tables with the same keys, whose rows are related by [R]. *)
Definition rows_related (R : Reminder -> Reminder -> Prop)
    (m m' : gmap string Reminder) : Prop :=
  forall k,
    match m !! k, m' !! k with
    | Some r, Some r' => R r r'
    | None, None => True
    | _, _ => False
    end.


(** A follow-up e-mail, by its subject. *)
Definition is_followup_call (ev : Event) : Prop :=
  match ev with
  | EmailCall m _ => em_subject m = "Did you complete your task?"
  | SmsCall _ _ => False
  end.

(** Only digits. *)
Fixpoint all_digits (s : string) : bool :=
  match s with
  | EmptyString => true
  | String c rest => Js.is_digit c && all_digits rest
  end.

(** * Properties *)

(** ** Phone normalisation *)

Section PhoneNormalisation.





End PhoneNormalisation.




(** ** The store: what a query returns *)

Section StoreFacts.

Lemma select_In (q : list Store.Filter) (db : gmap string Reminder)
    (id : string) (r : Reminder) :
  In (id, r) (Store.select q db) <-> db !! id = Some r /\ Store.matches q r = true.
Proof.
  unfold Store.select. rewrite filter_In, <- list_elem_of_In, elem_of_map_to_list.
  reflexivity.
Qed.

Lemma NoDup_fst_filter (f : Row -> bool) (rows : list Row) :
  NoDup (map fst rows) -> NoDup (map fst (List.filter f rows)).
Proof.
  induction rows as [|row rows IH]; intros Hnd; [constructor|].
  cbn in Hnd. apply NoDup_cons in Hnd as [Hnot Hnd].
  cbn. destruct (f row); [|now apply IH].
  cbn. apply NoDup_cons. split; [|now apply IH].
  intros Hin. apply Hnot.
  apply list_elem_of_In in Hin. apply list_elem_of_In.
  apply in_map_iff in Hin as (row' & Hrow' & Hin).
  apply in_map_iff. exists row'. split; [exact Hrow'|].
  apply filter_In in Hin. tauto.
Qed.

(** A query returns one row for a key. *)
Lemma select_NoDup (q : list Store.Filter) (db : gmap string Reminder) :
  NoDup (map fst (Store.select q db)).
Proof.
  apply NoDup_fst_filter. apply (NoDup_fst_map_to_list db).
Qed.

Lemma due_query_matches (now : Z) (r : Reminder) :
  Store.matches (due_query now) r = true <->
  sent r = false /\ scheduled_for r <= now.
Proof.
  unfold Store.matches, due_query. cbn.
  rewrite !andb_true_iff, Z.leb_le.
  destruct (sent r); cbn; intuition congruence.
Qed.

End StoreFacts.

(** ** The follow-up query *)

Lemma followup_query_matches (now : Z) (r : Reminder) :
  Store.matches (followup_query now) r = true <-> followup_eligible_spec now r.
Proof.
  unfold Store.matches, followup_query, followup_eligible_spec,
    followUpCutoff, followUpDelay, hours.
  cbn. rewrite !andb_true_iff, orb_true_iff, Z.leb_le.
  destruct (sent r), (completed r), (last_followup_sent r) as [t|]; cbn;
    rewrite ?Z.ltb_lt; split.
  all: try (intros (? & ? & ? & ?); discriminate).
  all: try (intros (? & ? & ? & ?); congruence).
  - intros (_ & _ & [H|H] & Hs & _); [discriminate|].
    repeat split; [|lia]. right. exists t. split; [reflexivity|lia].
  - intros (_ & _ & [H|(t' & Ht' & Hlt)] & Hs); [discriminate|].
    injection Ht' as <-. repeat split; [|lia]. right. lia.
  - intros (_ & _ & _ & Hs & _). repeat split; [now left|lia].
  - intros (_ & _ & _ & Hs). repeat split; [now left|lia].
Qed.

(** C2: the follow-up query of the scan at [now] returns a reminder if
    and only if it is in the store with sent = true, completed = false,
    lastFollowupSent null or earlier than now - 24h, and scheduledFor at
    most now - 24h. So a sent, uncompleted reminder never followed up is
    returned when scheduled 25 hours ago and not when scheduled 23 hours
    ago; and one scheduled 25 hours ago is not returned when followed up
    23 hours ago and is when followed up 25 hours ago. *)
Theorem followup_query_selects (now : Z) (db : gmap string Reminder)
    (id : string) (r : Reminder)
    (e p : option string) (t : string) (ts : option (list Task))
    (d : option string) (m : option (list string)) (c : option Z) :
  (In (id, r) (Store.select (followup_query now) db) <->
     db !! id = Some r /\ followup_eligible_spec now r)
  /\ Store.matches (followup_query now)
       (mkReminder e p t ts d (now - hours 25) m true false None c) = true
  /\ Store.matches (followup_query now)
       (mkReminder e p t ts d (now - hours 23) m true false None c) = false
  /\ Store.matches (followup_query now)
       (mkReminder e p t ts d (now - hours 25) m true false
          (Some (now - hours 23)) c) = false
  /\ Store.matches (followup_query now)
       (mkReminder e p t ts d (now - hours 25) m true false
          (Some (now - hours 25)) c) = true.
Proof.
  split; [|repeat split].
  - rewrite select_In, followup_query_matches. reflexivity.
  - apply followup_query_matches. unfold followup_eligible_spec, hours. cbn.
    repeat split; [now left|lia].
  - apply not_true_iff_false. rewrite followup_query_matches.
    unfold followup_eligible_spec, hours. cbn. intros (_ & _ & _ & H). lia.
  - apply not_true_iff_false. rewrite followup_query_matches.
    unfold followup_eligible_spec, hours. cbn.
    intros (_ & _ & [H|(t' & Ht' & Hlt)] & _); [discriminate|].
    injection Ht' as <-. lia.
  - apply followup_query_matches. unfold followup_eligible_spec, hours. cbn.
    repeat split; [|lia]. right. eexists. split; [reflexivity|lia].
Qed.

(** ** Rescheduling *)

Lemma alter_lookup_insert (f : Reminder -> Reminder) (id : string)
    (r : Reminder) (m : gmap string Reminder) :
  m !! id = Some r -> alter f id m = <[id := f r]> m.
Proof.
  intros Hr. apply map_eq. intros j.
  destruct (decide (id = j)) as [<-|Hne].
  - now rewrite lookup_alter_eq, lookup_insert_eq, Hr.
  - now rewrite lookup_alter_ne, lookup_insert_ne.
Qed.

(** Rescheduling an id that is not in the store answers with the error
    of the store and changes nothing; without the store client the
    handler answers at once. *)
Lemma reschedule_unknown_id (env : Env) (w : World) (id : string)
    (newScheduledFor : Z) (s : State) :
  supabase env = true -> db s !! id = None ->
  reschedule env w id newScheduledFor s = (Failure 500 (no_row_error w), s).
Proof.
  intros Hdb Hid.
  unfold reschedule, patch_handler, try_catch, bind, lift, throw,
    supabase_update_single.
  rewrite Hdb. cbn. now rewrite Hid.
Qed.

Lemma reschedule_not_configured (env : Env) (w : World) (id : string)
    (newScheduledFor : Z) (s : State) :
  supabase env = false ->
  reschedule env w id newScheduledFor s =
    (Failure 500 "Database not configured", s).
Proof.
  intros Hdb. unfold reschedule, patch_handler, try_catch, ret.
  now rewrite Hdb.
Qed.

(** C4: rescheduling an existing reminder answers with the row and
    replaces it in the store by a row that has scheduledFor =
    newScheduledFor, sent = false, lastFollowupSent = null and
    followupCount = 0 and every other column as before, whatever the row
    was (completed or not); no other row changes and nothing is sent. *)
Theorem reschedule_resets (env : Env) (w : World) (id : string)
    (newScheduledFor : Z) (s : State) (r : Reminder) :
  supabase env = true ->
  db s !! id = Some r ->
  exists r',
    reschedule env w id newScheduledFor s =
      (ReminderJson (id, r'), mkState (<[id := r']> (db s)) (calls s))
    /\ scheduled_for r' = newScheduledFor
    /\ sent r' = false
    /\ last_followup_sent r' = None
    /\ followup_count r' = Some 0
    /\ completed r' = completed r
    /\ tasks r' = tasks r
    /\ transcript r' = transcript r
    /\ email_draft r' = email_draft r
    /\ email r' = email r
    /\ phone_number r' = phone_number r
    /\ notification_methods r' = notification_methods r.
Proof.
  intros Hdb Hr. exists (set_rescheduled newScheduledFor r).
  split; [|repeat split].
  unfold reschedule, patch_handler, try_catch, bind, lift,
    supabase_update_single, Store.update.
  rewrite Hdb. cbn. rewrite Hr. cbn.
  now rewrite (alter_lookup_insert _ _ r).
Qed.

Lemma reschedule_resets_witness :
  let env := mkEnv None None None None None None (Some "url") (Some "key") None in
  let w := mkWorld (fun _ _ => Delivered) (fun _ _ => Delivered) None None "no rows" in
  let r := mkReminder (Some "a@example.com") None "call the doctor" None
             (Some "draft") 1000 None true true (Some 5000) (Some 3) in
  let s := mkState {["r1" := r]} [] in
  exists r',
    reschedule env w "r1" 9000 s =
      (ReminderJson ("r1", r'), mkState (<["r1" := r']> (db s)) (calls s))
    /\ scheduled_for r' = 9000 /\ sent r' = false
    /\ last_followup_sent r' = None /\ followup_count r' = Some 0
    /\ completed r' = true.
Proof.
  intros env w r s.
  destruct (reschedule_resets env w "r1" 9000 s r) as (r' & H).
  - reflexivity.
  - reflexivity.
  - exists r'. tauto.
Defined.

(** ** The mock branch of the transcription *)

Lemma no_whisper_key_iff (env : Env) :
  no_whisper_key env = true <->
  OPENAI_API_KEY env = None \/ OPENAI_API_KEY env = Some ""
  \/ OPENAI_API_KEY env = Some placeholder_key.
Proof.
  unfold no_whisper_key. destruct (OPENAI_API_KEY env) as [k|].
  - destruct (String.eqb_spec k placeholder_key) as [->|Hne].
    + split; [intros _; now right; right | reflexivity].
    + rewrite orb_false_r. destruct k as [|c k]; cbn.
      * split; [intros _; right; now left | reflexivity].
      * split; [discriminate|]. intros [H|[H|H]]; congruence.
  - split; [intros _; now left | reflexivity].
Qed.

Lemma transcribe_catch_failed (p : option string) (f : UploadedFile)
    (e : string) (fs : gset string) :
  fst (transcribe_catch p f e fs) = TranscriptionFailed e.
Proof. reflexivity. Qed.

(** Without the mock condition, no answer carries [mock = true]. *)
Lemma transcribe_real_not_mock (env : Env) (whisper : string -> Res string)
    (f : UploadedFile) (fs : gset string) (t : string) (fs' : gset string) :
  no_whisper_key env = false ->
  transcribe env whisper (Some f) fs <> (Transcript t true, fs').
Proof.
  intros Hkey. unfold transcribe. rewrite Hkey.
  destruct (renameSync _ _ fs) as [[[]|e] fs1]; [|now intros H].
  destruct (whisper _) as [text|e]; [|now intros H].
  destruct (unlinkSync _ fs1) as [[[]|e] fs2]; now intros H.
Qed.

(** A request without a file is refused before the key is read. *)
Lemma transcribe_no_file (env : Env) (whisper : string -> Res string)
    (fs : gset string) :
  transcribe env whisper None fs = (BadRequest "No audio file provided", fs).
Proof. reflexivity. Qed.

(** C10: for an uploaded file that is on disk, the transcription answers
    with the placeholder transcript and [mock = true], and deletes the
    file, if and only if the variable OPENAI_API_KEY is unset, empty or
    equal to the placeholder [your-openai-api-key-here]; otherwise no
    answer has [mock = true]; and with the placeholder as the key the
    health endpoint reports [whisperAvailable = true]. *)
Theorem transcribe_mock_iff (env : Env) (whisper : string -> Res string)
    (file : UploadedFile) (fs : gset string) :
  path file ∈ fs ->
  (transcribe env whisper (Some file) fs =
     (Transcript mockTranscript true, fs ∖ {[path file]})
   <-> OPENAI_API_KEY env = None \/ OPENAI_API_KEY env = Some ""
       \/ OPENAI_API_KEY env = Some placeholder_key)
  /\ (no_whisper_key env = false ->
      forall t fs', transcribe env whisper (Some file) fs <> (Transcript t true, fs'))
  /\ (OPENAI_API_KEY env = Some placeholder_key ->
      whisperAvailable (health env) = true).
Proof.
  intros Hfile. split; [|split].
  - rewrite <- no_whisper_key_iff. split.
    + intros H. destruct (no_whisper_key env) eqn:Hkey; [reflexivity|].
      now apply transcribe_real_not_mock in H.
    + intros Hkey. unfold transcribe, unlinkSync, existsSync. rewrite Hkey.
      now rewrite bool_decide_eq_true_2.
  - intros Hkey t fs'. now apply transcribe_real_not_mock.
  - intros Hkey. unfold health. cbn. now rewrite Hkey.
Qed.

Lemma transcribe_mock_iff_witness :
  let env := mkEnv (Some placeholder_key) None None None None None None None None in
  let file := mkFile "uploads/3f2a" "memo.webm" 2048 in
  transcribe env (fun _ => Ok "hello") (Some file) {["uploads/3f2a"]} =
    (Transcript mockTranscript true, {["uploads/3f2a"]} ∖ {["uploads/3f2a"]})
  /\ whisperAvailable (health env) = true.
Proof.
  intros env file.
  destruct (transcribe_mock_iff env (fun _ => Ok "hello") file {["uploads/3f2a"]})
    as (Hiff & _ & Hhealth).
  - vm_compute. reflexivity.
  - split.
    + apply Hiff. right. right. reflexivity.
    + apply Hhealth. reflexivity.
Defined.

(** ** The due loop *)

Section DueLoop.

Variables (env : Env) (w : World).




(** One iteration, in general: the reminder is marked and reported sent
    after calls that all delivered, or a call threw, the store is as it
    was and the message of the error is reported. *)
Lemma due_iteration_cases (acc : list ResultEntry) (k : string)
    (r : Reminder) (s : State) :
  (exists evs,
     due_iteration env w acc (k, r) s =
       ((acc ++ [mkResult k "sent" None])%list,
        mkState (Store.update set_sent k (db s)) (calls s ++ evs)%list)
     /\ forall ev, In ev evs ->
          ev = EmailCall (reminder_email r) Delivered
          \/ ev = SmsCall (reminder_sms env r) Delivered)
  \/ (exists msg evs,
       due_iteration env w acc (k, r) s =
         ((acc ++ [mkResult k "failed" (Some msg)])%list,
          mkState (db s) (calls s ++ evs)%list)
       /\ (In (EmailCall (reminder_email r) (Threw msg)) evs
           \/ In (SmsCall (reminder_sms env r) (Threw msg)) evs)).
Proof.
  unfold_block.
  destruct (wants_email r); cbv beta iota zeta.
  - destruct (email_provider w (calls s) (reminder_email r)) as [|msg] eqn:Hp.
    + destruct (wants_sms env r); cbv beta iota zeta; cbn [calls db].
      * destruct (sms_provider w _ (reminder_sms env r)) as [|msg] eqn:Hq.
        -- left. eexists. rewrite <- app_assoc. split; [reflexivity|].
           cbn. intuition.
        -- right. exists msg. eexists. rewrite <- app_assoc.
           split; [reflexivity|]. cbn. intuition.
      * left. eexists. split; [reflexivity|]. cbn. intuition.
    + right. exists msg. eexists. split; [reflexivity|]. cbn. intuition.
  - destruct (wants_sms env r); cbv beta iota zeta; cbn [calls db].
    + destruct (sms_provider w _ (reminder_sms env r)) as [|msg] eqn:Hq.
      * left. eexists. split; [reflexivity|]. cbn. intuition.
      * right. exists msg. eexists. split; [reflexivity|]. cbn. intuition.
    + left. exists []. rewrite app_nil_r. split; [reflexivity|]. cbn. intuition.
Qed.

(** One iteration pushes one element, for its reminder, and touches no
    other row. *)
Lemma due_iteration_summary (acc : list ResultEntry) (k : string)
    (r : Reminder) (s : State) :
  exists e s',
    due_iteration env w acc (k, r) s = ((acc ++ [e])%list, s')
    /\ res_id e = k /\ due_entry e
    /\ (exists evs, calls s' = (calls s ++ evs)%list)
    /\ (forall j, j <> k -> db s' !! j = db s !! j).
Proof.
  destruct (due_iteration_cases acc k r s)
    as [(evs & -> & _)|(msg & evs & -> & _)].
  - eexists _, _. split; [reflexivity|]. cbn. repeat split.
    + left. now split.
    + now exists evs.
    + intros j Hj. unfold Store.update. now rewrite lookup_alter_ne.
  - eexists _, _. split; [reflexivity|]. cbn. repeat split.
    + right. split; [reflexivity|]. now exists msg.
    + now exists evs.
Qed.

(** The loop pushes one element per row, in the order of the rows, and
    touches no row outside them. *)
Lemma due_loop_summary (rows : list Row) (acc : list ResultEntry) (s : State) :
  exists more s',
    due_loop env w rows acc s = ((acc ++ more)%list, s')
    /\ map res_id more = map fst rows
    /\ Forall due_entry more
    /\ (exists evs, calls s' = (calls s ++ evs)%list)
    /\ (forall j, ~ In j (map fst rows) -> db s' !! j = db s !! j).
Proof.
  revert acc s. induction rows as [|[k r] rows IH]; intros acc s.
  - exists [], s. rewrite app_nil_r.
    split; [reflexivity|]. split; [reflexivity|]. split; [apply Forall_nil_2|].
    split; [exists []; now rewrite app_nil_r|reflexivity].
  - destruct (due_iteration_summary acc k r s)
      as (e & s1 & Hit & Hid & He & (evs1 & Hc1) & Hdb1).
    destruct (IH (acc ++ [e])%list s1)
      as (more & s' & Hloop & Hids & Hall & (evs & Hc) & Hdb).
    exists (e :: more), s'. cbn [due_loop]. rewrite Hit, Hloop, <- app_assoc.
    repeat split.
    + cbn. now rewrite Hid, Hids.
    + now constructor.
    + exists (evs1 ++ evs)%list. now rewrite Hc, Hc1, <- app_assoc.
    + intros j Hj. cbn in Hj. rewrite Hdb, Hdb1; [reflexivity| |]; intuition.
Qed.



End DueLoop.

(** ** The follow-up loop *)

Section FollowUpLoop.

Variables (env : Env) (w : World) (now : Z).

(** One iteration, by what the e-mail provider does. *)
Lemma followup_iteration_delivered (acc : list ResultEntry) (k : string)
    (r : Reminder) (s : State) :
  email_provider w (calls s) (followup_email env (k, r)) = Delivered ->
  followup_iteration env w now acc (k, r) s =
    ((acc ++ [mkResult k "followup_sent" None])%list,
     mkState
       (Store.update (set_followup now (default 0 (followup_count r) + 1)) k (db s))
       (calls s ++ [EmailCall (followup_email env (k, r)) Delivered])%list).
Proof. intros Hp. unfold_block. now rewrite Hp. Qed.

Lemma followup_iteration_threw (acc : list ResultEntry) (k : string)
    (r : Reminder) (s : State) (msg : string) :
  email_provider w (calls s) (followup_email env (k, r)) = Threw msg ->
  followup_iteration env w now acc (k, r) s =
    ((acc ++ [mkResult k "followup_failed" (Some msg)])%list,
     mkState (db s)
       (calls s ++ [EmailCall (followup_email env (k, r)) (Threw msg)])%list).
Proof. intros Hp. unfold_block. now rewrite Hp. Qed.

Lemma set_followup_sent (t c : Z) (o : option Reminder) :
  sent <$> (set_followup t c <$> o) = sent <$> o.
Proof. now destruct o. Qed.

(** One iteration pushes one element, for its reminder, touches no other
    row, and leaves the column [sent] of every row alone. *)
Lemma followup_iteration_summary (acc : list ResultEntry) (k : string)
    (r : Reminder) (s : State) :
  exists e s',
    followup_iteration env w now acc (k, r) s = ((acc ++ [e])%list, s')
    /\ res_id e = k /\ followup_entry e
    /\ (exists evs, calls s' = (calls s ++ evs)%list)
    /\ (forall j, j <> k -> db s' !! j = db s !! j)
    /\ (forall j, sent <$> db s' !! j = sent <$> db s !! j).
Proof.
  destruct (email_provider w (calls s) (followup_email env (k, r)))
    as [|msg] eqn:Hp.
  - rewrite (followup_iteration_delivered _ _ _ _ Hp).
    eexists _, _. split; [reflexivity|]. cbn. repeat split.
    + left. now split.
    + eexists. reflexivity.
    + intros j Hj. unfold Store.update. now rewrite lookup_alter_ne.
    + intros j. unfold Store.update. destruct (decide (k = j)) as [<-|Hne].
      * now rewrite lookup_alter_eq, set_followup_sent.
      * now rewrite lookup_alter_ne.
  - rewrite (followup_iteration_threw _ _ _ _ _ Hp).
    eexists _, _. split; [reflexivity|]. cbn. repeat split.
    + right. split; [reflexivity|]. now exists msg.
    + eexists. reflexivity.
Qed.

Lemma followup_loop_summary (rows : list Row) (acc : list ResultEntry)
    (s : State) :
  exists more s',
    followup_loop env w now rows acc s = ((acc ++ more)%list, s')
    /\ map res_id more = map fst rows
    /\ Forall followup_entry more
    /\ (exists evs, calls s' = (calls s ++ evs)%list)
    /\ (forall j, ~ In j (map fst rows) -> db s' !! j = db s !! j)
    /\ (forall j, sent <$> db s' !! j = sent <$> db s !! j).
Proof.
  revert acc s. induction rows as [|[k r] rows IH]; intros acc s.
  - exists [], s. rewrite app_nil_r.
    split; [reflexivity|]. split; [reflexivity|]. split; [apply Forall_nil_2|].
    split; [exists []; now rewrite app_nil_r|]. split; reflexivity.
  - destruct (followup_iteration_summary acc k r s)
      as (e & s1 & Hit & Hid & He & (evs1 & Hc1) & Hdb1 & Hsent1).
    destruct (IH (acc ++ [e])%list s1)
      as (more & s' & Hloop & Hids & Hall & (evs & Hc) & Hdb & Hsent).
    exists (e :: more), s'. cbn [followup_loop].
    rewrite Hit, Hloop, <- app_assoc.
    repeat split.
    + cbn. now rewrite Hid, Hids.
    + now constructor.
    + exists (evs1 ++ evs)%list. now rewrite Hc, Hc1, <- app_assoc.
    + intros j Hj. cbn in Hj. rewrite Hdb, Hdb1; [reflexivity| |]; intuition.
    + intros j. now rewrite Hsent, Hsent1.
Qed.


(** The follow-up part of the scan: it pushes follow-up elements only,
    leaves the column [sent] of every row alone, and leaves alone every
    row that is not marked sent. *)
Lemma followup_scan_summary (acc : list ResultEntry) (s : State) :
  exists more s',
    followup_scan env w now acc s = ((acc ++ more)%list, s')
    /\ Forall followup_entry more
    /\ (exists evs, calls s' = (calls s ++ evs)%list)
    /\ (forall j, sent <$> db s' !! j = sent <$> db s !! j)
    /\ (forall j r, db s !! j = Some r -> sent r = false -> db s' !! j = Some r).
Proof.
  unfold followup_scan, supabase_select.
  destruct (followup_query_error w) as [e|].
  - exists [], s. rewrite app_nil_r.
    split; [reflexivity|]. split; [apply Forall_nil_2|].
    split; [exists []; now rewrite app_nil_r|]. split; [reflexivity|tauto].
  - destruct (followup_loop_summary (Store.select (followup_query now) (db s)) acc s)
      as (more & s' & Hloop & _ & Hall & Hc & Hdb & Hsent).
    exists more, s'. repeat split; try assumption.
    intros j r Hj Hr. rewrite Hdb; [exact Hj|].
    intros Hin. apply in_map_iff in Hin as ([j' r'] & Heq & Hin).
    cbn in Heq. subst j'. apply select_In in Hin as [Hj' Hm].
    apply followup_query_matches in Hm as (Hs & _). congruence.
Qed.

Lemma followup_scan_query_error (acc : list ResultEntry) (s : State) (e : string) :
  followup_query_error w = Some e -> followup_scan env w now acc s = (acc, s).
Proof. intros He. unfold followup_scan, supabase_select. now rewrite He. Qed.

End FollowUpLoop.

(** ** The handler of the scan *)

Section Scan.

Variables (env : Env) (w : World) (now : Z).

Hypothesis supabase_configured : supabase env = true.
Hypothesis resend_configured : resend env = true.

(** With both clients and a due query that answers, the handler is the
    due loop, then the follow-up part, then the report. *)
Lemma send_due_unfold (s : State) :
  due_query_error w = None ->
  send_due env w now s =
    let '(results1, s1) := after_due_scan env w now s in
    let '(results, s2) := followup_scan env w now results1 s1 in
    (Report (length results) results, s2).
Proof.
  intros Hq. unfold send_due, send_due_body, try_catch, bind, lift, ret,
    supabase_select, after_due_scan.
  rewrite supabase_configured, resend_configured, Hq. cbn [negb orb].
  destruct (due_loop env w _ [] s) as [results1 s1].
  now destruct (followup_scan env w now results1 s1) as [results s2].
Qed.

(** A due query that fails ends the handler with its error; nothing was
    sent and the store is as it was. *)
Lemma send_due_query_error (s : State) (e : string) :
  due_query_error w = Some e ->
  send_due env w now s = (Failure 500 e, s).
Proof.
  intros Hq. unfold send_due, send_due_body, try_catch, bind, lift, throw,
    supabase_select.
  now rewrite supabase_configured, resend_configured, Hq.
Qed.

End Scan.

(** Without one of the two clients the handler answers at once. *)
Lemma send_due_not_configured (env : Env) (w : World) (now : Z) (s : State) :
  supabase env = false \/ resend env = false ->
  send_due env w now s = (Failure 500 "Services not configured", s).
Proof.
  intros H. unfold send_due, send_due_body, try_catch, ret.
  destruct H as [-> | ->]; [reflexivity|].
  now rewrite orb_true_r.
Qed.

(** ** The due scan, reminder by reminder *)


Lemma due_entry_status (e : ResultEntry) :
  due_entry e ->
  res_status e <> "followup_sent" /\ res_status e <> "followup_failed".
Proof.
  intros [[Hs _]|[Hs _]]; rewrite Hs; split; discriminate.
Qed.




(** ** The follow-up scan, reminder by reminder *)



(** ** The report *)

(** C7, as the claim states it, fails on a scan with a follow-up: the
    element the follow-up loop pushes has the status "followup_sent",
    which is neither "sent" nor "failed". *)
Lemma report_followup_status :
  fst (send_due Examples.env_full Examples.world_ok (1000 + 3 * followUpDelay)
         (Examples.store_of "r1" Examples.sent_reminder))
  = Report 1 [mkResult "r1" "followup_sent" None]
  /\ res_status (mkResult "r1" "followup_sent" None) <> "sent"
  /\ res_status (mkResult "r1" "followup_sent" None) <> "failed".
Proof. split; [vm_compute; reflexivity|]. split; discriminate. Qed.

(** C7 (amended): a scan that runs answers {success: true, processed,
    results} where [results] is the elements of the due loop, one for
    each row of the due query in its order, followed by those of the
    follow-up loop, one for each row of the follow-up query in its order
    (none when that query fails), and [processed] is the length of
    [results]. An element of the due loop is {id, status: "sent"} or
    {id, status: "failed", error}; an element of the follow-up loop is
    {id, status: "followup_sent"} or {id, status: "followup_failed",
    error}. *)
Theorem report_shape (env : Env) (w : World) (now : Z) (s : State) :
  supabase env = true -> resend env = true -> due_query_error w = None ->
  exists due_results followup_results s',
    send_due env w now s =
      (Report (length (due_results ++ followup_results)%list)
         (due_results ++ followup_results)%list, s')
    /\ due_results = fst (after_due_scan env w now s)
    /\ map res_id due_results = map fst (Store.select (due_query now) (db s))
    /\ Forall due_entry due_results
    /\ Forall followup_entry followup_results
    /\ (followup_query_error w = None ->
        map res_id followup_results =
          map fst (Store.select (followup_query now)
                     (db (snd (after_due_scan env w now s)))))
    /\ (followup_query_error w <> None -> followup_results = []).
Proof.
  intros Hsb Hrs Hq.
  rewrite (send_due_unfold env w now Hsb Hrs s Hq). unfold after_due_scan.
  destruct (due_loop_summary env w (Store.select (due_query now) (db s)) [] s)
    as (due_results & s1 & Hloop & Hids & Hall & _ & _).
  rewrite Hloop. cbn [app fst snd].
  unfold followup_scan, supabase_select.
  destruct (followup_query_error w) as [e|].
  - exists due_results, [], s1. rewrite app_nil_r.
    split; [reflexivity|]. split; [reflexivity|]. split; [exact Hids|].
    split; [exact Hall|]. split; [apply Forall_nil_2|].
    split; [discriminate|reflexivity].
  - destruct (followup_loop_summary env w now
                (Store.select (followup_query now) (db s1)) due_results s1)
      as (more & s' & Hfloop & Hfids & Hfall & _).
    rewrite Hfloop. exists due_results, more, s'.
    split; [reflexivity|]. split; [reflexivity|]. split; [exact Hids|].
    split; [exact Hall|]. split; [exact Hfall|].
    split; [intros _; exact Hfids|congruence].
Qed.

Lemma report_shape_witness :
  exists due_results followup_results s',
    send_due Examples.env_full Examples.world_ok 2000
      (Examples.store_of "r1" Examples.email_reminder) =
      (Report (length (due_results ++ followup_results)%list)
         (due_results ++ followup_results)%list, s')
    /\ Forall due_entry due_results
    /\ Forall followup_entry followup_results.
Proof.
  destruct (report_shape Examples.env_full Examples.world_ok 2000
              (Examples.store_of "r1" Examples.email_reminder))
    as (d & f & s' & Hrun & _ & _ & Hd & Hf & _).
  - reflexivity.
  - reflexivity.
  - reflexivity.
  - exists d, f, s'. split; [exact Hrun|]. split; assumption.
Defined.

(** ** Errors of the store *)

(** C8, as the claim states it, fails when the follow-up query fails:
    the handler does not answer with an error, it reports the scan as a
    success with the element of the due loop, whose reminder has been
    sent and marked. *)
Lemma followup_query_error_not_reported :
  send_due Examples.env_full Examples.world_followup_query_down 2000
    (Examples.store_of "r1" Examples.email_reminder)
  = (Report 1 [mkResult "r1" "sent" None],
     mkState {["r1" := set_sent Examples.email_reminder]}
       [EmailCall (reminder_email Examples.email_reminder) Delivered])
  /\ forall code e,
       fst (send_due Examples.env_full Examples.world_followup_query_down 2000
              (Examples.store_of "r1" Examples.email_reminder))
       <> Failure code e.
Proof.
  assert (H : send_due Examples.env_full Examples.world_followup_query_down 2000
                (Examples.store_of "r1" Examples.email_reminder)
              = (Report 1 [mkResult "r1" "sent" None],
                 mkState {["r1" := set_sent Examples.email_reminder]}
                   [EmailCall (reminder_email Examples.email_reminder) Delivered])).
  { vm_compute. reflexivity. }
  split; [exact H|]. intros code e. rewrite H. discriminate.
Qed.

(** C8 (amended): in a scan with both clients configured, if the due
    query fails the handler answers with that error under the status 500
    and nothing has been sent and the store is as it was; if the due
    query answers and the follow-up query fails, that error is not
    reported: the handler answers with the report of the due loop, whose
    sends and marks stand, and no follow-up is sent or recorded. *)
Theorem store_query_errors (env : Env) (w : World) (now : Z) (s : State) :
  supabase env = true -> resend env = true ->
  (forall e, due_query_error w = Some e ->
     send_due env w now s = (Failure 500 e, s))
  /\ (forall e, due_query_error w = None -> followup_query_error w = Some e ->
        send_due env w now s =
          (Report (length (fst (after_due_scan env w now s)))
             (fst (after_due_scan env w now s)),
           snd (after_due_scan env w now s))).
Proof.
  intros Hsb Hrs. split.
  - intros e Hq. now apply send_due_query_error.
  - intros e Hq Hfq. rewrite (send_due_unfold env w now Hsb Hrs s Hq).
    destruct (after_due_scan env w now s) as [results1 s1].
    now rewrite (followup_scan_query_error env w now results1 s1 e Hfq).
Qed.

Lemma store_query_errors_witness :
  send_due Examples.env_full Examples.world_due_query_down 2000
    (Examples.store_of "r1" Examples.email_reminder)
  = (Failure 500 "store unreachable",
     Examples.store_of "r1" Examples.email_reminder).
Proof.
  apply (store_query_errors Examples.env_full Examples.world_due_query_down
           2000 (Examples.store_of "r1" Examples.email_reminder));
    reflexivity.
Defined.

(** ** The channels *)







(** ** Code fences *)

Section Fences.

Import Fence.

Lemma match_at_none (pat s : string) :
  starts_with pat s = false -> match_at pat s = 0%nat.
Proof. intros H. unfold match_at. now rewrite H. Qed.

Lemma match_at_some (pat s : string) :
  pat <> "" -> match_at pat s = 0%nat -> starts_with pat s = false.
Proof.
  intros Hpat H. unfold match_at in H.
  destruct (starts_with pat s); [|reflexivity].
  destruct pat as [|a pat]; [congruence|]. cbn [String.length] in H.
  destruct (String.get _ s) as [c|]; [destruct (Ascii.eqb c _)|]; discriminate.
Qed.

Lemma remove_matches_keep (pat : string) (c : ascii) (rest : string) :
  starts_with pat (String c rest) = false ->
  remove_matches pat 0 (String c rest) = String c (remove_matches pat 0 rest).
Proof.
  intros H. cbn [remove_matches]. now rewrite (match_at_none _ _ H).
Qed.

(** A text in which the pattern does not occur is left as it is. *)
Lemma remove_matches_absent (pat s : string) :
  occurs pat s = false -> remove_matches pat 0 s = s.
Proof.
  induction s as [|c rest IH]; [reflexivity|].
  cbn [occurs]. intros H. apply orb_false_iff in H as [Hhead Hrest].
  rewrite (remove_matches_keep _ _ _ Hhead). now rewrite IH.
Qed.

(** Where a longer pattern matches, so does its beginning. *)
Lemma starts_with_prefix (pat q s : string) :
  starts_with (pat +:+ q) s = true -> starts_with pat s = true.
Proof.
  revert s. induction pat as [|a pat IH]; intros s; [reflexivity|].
  change (String a pat +:+ q) with (String a (pat +:+ q)).
  cbn [starts_with]. destruct s as [|b s]; [discriminate|].
  rewrite !andb_true_iff. intros [Hab H]. split; [exact Hab|now apply IH].
Qed.

Lemma occurs_prefix (pat q s : string) :
  occurs pat s = false -> occurs (pat +:+ q) s = false.
Proof.
  induction s as [|c rest IH]; [reflexivity|].
  cbn [occurs]. rewrite !orb_false_iff. intros [Hhead Hrest].
  split; [|now apply IH].
  destruct (starts_with (pat +:+ q) (String c rest)) eqn:H; [|reflexivity].
  apply starts_with_prefix in H. congruence.
Qed.

(** A character that is not in the pattern ends every match attempt. *)
Lemma starts_with_cut (pat t u : string) (n : ascii) :
  lacks n pat = true ->
  starts_with pat (t +:+ String n u) = starts_with pat t.
Proof.
  revert t. induction pat as [|a pat IH]; intros t Hpat; [reflexivity|].
  cbn [lacks] in Hpat. apply andb_true_iff in Hpat as [Han Hpat].
  destruct t as [|b t].
  - change ("" +:+ String n u) with (String n u). cbn [starts_with].
    apply negb_true_iff in Han. now rewrite Han.
  - change (String b t +:+ String n u) with (String b (t +:+ String n u)).
    cbn [starts_with]. now rewrite IH.
Qed.

(** The kept character in front of what is left of the rest does not
    begin a fence. *)
Lemma kept_head_no_fence (c : ascii) (rest : string) :
  starts_with fence (String c rest) = false ->
  starts_with fence (String c (remove_matches fence 0 rest)) = false.
Proof.
  intros H.
  destruct (Ascii.eqb_spec tick c) as [<-|Hc].
  2:{ cbn [starts_with fence]. apply Ascii.eqb_neq in Hc. now rewrite Hc. }
  destruct rest as [|b r2]; [reflexivity|].
  destruct (Ascii.eqb_spec tick b) as [<-|Hb].
  2:{ rewrite remove_matches_keep.
      - cbn [starts_with fence]. apply Ascii.eqb_neq in Hb.
        now rewrite Hb, andb_false_r.
      - cbn [starts_with fence]. apply Ascii.eqb_neq in Hb. now rewrite Hb. }
  destruct r2 as [|d r3]; [reflexivity|].
  destruct (Ascii.eqb_spec tick d) as [<-|Hd]; [discriminate H|].
  apply Ascii.eqb_neq in Hd.
  rewrite remove_matches_keep.
  - rewrite remove_matches_keep.
    + cbn [starts_with fence]. now rewrite Hd, !andb_false_r.
    + cbn [starts_with fence]. now rewrite Hd.
  - cbn [starts_with fence]. now rewrite Hd, !andb_false_r.
Qed.

Lemma remove_fences_no_fence (skip : nat) (s : string) :
  has_fence (remove_matches fence skip s) = false.
Proof.
  unfold has_fence. revert skip.
  induction s as [|c rest IH]; intros skip; [reflexivity|].
  cbn [remove_matches]. destruct skip as [|n]; [|apply IH].
  destruct (match_at fence (String c rest)) as [|n] eqn:Hm; [|apply IH].
  cbn [occurs]. rewrite IH, orb_false_r.
  apply kept_head_no_fence. now apply match_at_some.
Qed.

(** What is left of a fenced block that ends the text: its body and the
    line feed before the closing fence. *)
Lemma remove_fences_closing (body : string) :
  has_fence body = false ->
  remove_matches fence 0 (body +:+ nl +:+ fence) = body +:+ nl.
Proof.
  unfold has_fence.
  induction body as [|c rest IH]; [reflexivity|].
  cbn [occurs]. intros H. apply orb_false_iff in H as [Hhead Hrest].
  change (String c rest +:+ nl +:+ fence)
    with (String c (rest +:+ String (ascii_of_nat 10) fence)).
  rewrite remove_matches_keep.
  - change (String c rest +:+ nl) with (String c (rest +:+ nl)).
    f_equal. now apply IH.
  - change (String c (rest +:+ String (ascii_of_nat 10) fence))
      with (String c rest +:+ String (ascii_of_nat 10) fence).
    now rewrite starts_with_cut.
Qed.

Lemma json_fence_absent_closing (body : string) :
  has_fence body = false ->
  occurs json_fence (body +:+ nl +:+ fence) = false.
Proof.
  unfold has_fence.
  induction body as [|c rest IH]; [reflexivity|].
  cbn [occurs]. intros H. apply orb_false_iff in H as [Hhead Hrest].
  change (String c rest +:+ nl +:+ fence)
    with (String c (rest +:+ String (ascii_of_nat 10) fence)).
  cbn [occurs]. apply orb_false_iff. split; [|now apply IH].
  change (String c (rest +:+ String (ascii_of_nat 10) fence))
    with (String c rest +:+ String (ascii_of_nat 10) fence).
  rewrite starts_with_cut by reflexivity.
  destruct (starts_with json_fence (String c rest)) eqn:Hj; [|reflexivity].
  apply (starts_with_prefix fence "json") in Hj. congruence.
Qed.

End Fences.

(** The two [replace] calls leave no run of three backticks in the text
    given to [JSON.parse], whatever the answer of the model was. *)
Theorem strip_fences_no_fence (response : string) :
  Fence.has_fence (Fence.strip_fences response) = false.
Proof. apply remove_fences_no_fence. Qed.

(** An answer without a run of three backticks goes through the two
    [replace] calls unchanged. *)
Theorem strip_fences_plain (response : string) :
  Fence.has_fence response = false -> Fence.strip_fences response = response.
Proof.
  intros H. unfold Fence.strip_fences.
  rewrite (remove_matches_absent Fence.json_fence).
  - now apply remove_matches_absent.
  - now apply (occurs_prefix Fence.fence "json").
Qed.

Lemma strip_fences_plain_witness :
  Fence.strip_fences "{ tasks: [] }" = "{ tasks: [] }".
Proof. apply strip_fences_plain. reflexivity. Defined.

(** An answer that is one fenced block, opened by three backticks with
    or without the word json and a line feed, and closed by a line feed
    and three backticks, is reduced to its body and one line feed, when
    the body has no run of three backticks. *)
Theorem strip_fences_block (body : string) :
  Fence.has_fence body = false ->
  Fence.strip_fences (Fence.json_fence +:+ nl +:+ body +:+ nl +:+ Fence.fence)
    = body +:+ nl
  /\ Fence.strip_fences (Fence.fence +:+ nl +:+ body +:+ nl +:+ Fence.fence)
    = body +:+ nl.
Proof.
  intros H. unfold Fence.strip_fences. split.
  - change (Fence.remove_matches Fence.json_fence 0
              (Fence.json_fence +:+ nl +:+ body +:+ nl +:+ Fence.fence))
      with (Fence.remove_matches Fence.json_fence 0 (body +:+ nl +:+ Fence.fence)).
    rewrite (remove_matches_absent Fence.json_fence)
      by now apply json_fence_absent_closing.
    now apply remove_fences_closing.
  - rewrite (remove_matches_absent Fence.json_fence).
    + change (Fence.remove_matches Fence.fence 0
                (Fence.fence +:+ nl +:+ body +:+ nl +:+ Fence.fence))
        with (Fence.remove_matches Fence.fence 0 (body +:+ nl +:+ Fence.fence)).
      now apply remove_fences_closing.
    + change (Fence.fence +:+ nl +:+ body +:+ nl +:+ Fence.fence)
        with (String Fence.tick (String Fence.tick (String Fence.tick
                (String (ascii_of_nat 10) (body +:+ nl +:+ Fence.fence))))).
      cbn [Fence.occurs]. rewrite json_fence_absent_closing by exact H.
      reflexivity.
Qed.

Lemma strip_fences_block_witness :
  Fence.strip_fences
    (Fence.json_fence +:+ nl +:+ "{ tasks: [] }" +:+ nl +:+ Fence.fence)
  = "{ tasks: [] }" +:+ nl.
Proof. apply (strip_fences_block "{ tasks: [] }"). reflexivity. Defined.

(** ** The temporary files of a transcription *)

Section TempFiles.

Lemma append_length (s t : string) :
  String.length (s +:+ t) = (String.length s + String.length t)%nat.
Proof.
  induction s as [|c s IH]; [reflexivity|].
  change (String c s +:+ t) with (String c (s +:+ t)). cbn. now rewrite IH.
Qed.

Lemma renamed_differs (p : string) : p <> p +:+ ".webm".
Proof.
  intros H. apply (f_equal String.length) in H.
  rewrite append_length in H. cbn in H. lia.
Qed.

Lemma renamed_truthy (p : string) : Js.truthy (Some (p +:+ ".webm")) = true.
Proof. now destruct p. Qed.

Lemma existsSync_true (p : string) (fs : gset string) :
  p ∈ fs -> existsSync p fs = true.
Proof. intros H. unfold existsSync. now apply bool_decide_eq_true_2. Qed.

Lemma existsSync_false (p : string) (fs : gset string) :
  p ∉ fs -> existsSync p fs = false.
Proof. intros H. unfold existsSync. now apply bool_decide_eq_false_2. Qed.

(** With a real key and the upload on disk, the handler renames the
    file, asks the provider and removes the renamed file, whatever the
    provider does. *)
Lemma transcribe_real (env : Env) (whisper : string -> Res string)
    (file : UploadedFile) (fs : gset string) :
  path file ∈ fs -> no_whisper_key env = false ->
  transcribe env whisper (Some file) fs =
    (match whisper (path file +:+ ".webm") with
     | Ok text => Transcript text false
     | Throw e => TranscriptionFailed e
     end,
     (fs ∖ {[path file]}) ∖ {[path file +:+ ".webm"]}).
Proof.
  intros Hin Hkey. pose proof (renamed_differs (path file)) as Hne.
  unfold transcribe, renameSync. rewrite Hkey, (existsSync_true _ _ Hin).
  assert (Hren : (path file +:+ ".webm")
                 ∈ (fs ∖ {[path file]}) ∪ {[path file +:+ ".webm"]})
    by set_solver.
  assert (Hset : ((fs ∖ {[path file]}) ∪ {[path file +:+ ".webm"]})
                 ∖ {[path file +:+ ".webm"]}
                 = (fs ∖ {[path file]}) ∖ {[path file +:+ ".webm"]})
    by set_solver.
  destruct (whisper (path file +:+ ".webm")) as [text|e].
  - unfold unlinkSync. rewrite (existsSync_true _ _ Hren). now rewrite Hset.
  - unfold transcribe_catch, unlinkSync.
    rewrite renamed_truthy, (existsSync_true _ _ Hren). cbn. now rewrite Hset.
Qed.

End TempFiles.

(** After a transcription whose upload was on disk, whether mocked,
    answered or failed, the upload is gone, and with a real key so is
    the renamed copy; no other file is created or removed. *)
Theorem transcribe_cleans_up (env : Env) (whisper : string -> Res string)
    (file : UploadedFile) (fs : gset string) :
  path file ∈ fs ->
  let fs' := snd (transcribe env whisper (Some file) fs) in
  (path file ∉ fs')
  /\ (no_whisper_key env = false -> (path file +:+ ".webm") ∉ fs')
  /\ (forall p, p <> path file -> p <> path file +:+ ".webm" ->
        (p ∈ fs' <-> p ∈ fs)).
Proof.
  intros Hin. destruct (no_whisper_key env) eqn:Hkey.
  - unfold transcribe, unlinkSync. rewrite Hkey, (existsSync_true _ _ Hin).
    cbn. split; [set_solver|]. split; [discriminate|]. set_solver.
  - rewrite (transcribe_real env whisper file fs Hin Hkey). cbn.
    split; [set_solver|]. split; [set_solver|]. set_solver.
Qed.

Lemma transcribe_cleans_up_witness :
  let env := mkEnv (Some "sk-live") None None None None None None None None in
  let file := mkFile "uploads/3f2a" "memo.webm" 2048 in
  let fs' := snd (transcribe env (fun _ => Throw "timeout") (Some file)
                    {["uploads/3f2a"]}) in
  ("uploads/3f2a" ∉ fs') /\ ("uploads/3f2a.webm" ∉ fs').
Proof.
  intros env file fs'.
  destruct (transcribe_cleans_up env (fun _ => Throw "timeout") file
              {["uploads/3f2a"]}) as (H1 & H2 & _).
  - vm_compute. reflexivity.
  - split; [exact H1|]. apply H2. reflexivity.
Defined.

(** With a real key and the upload on disk, the answer is the text of
    the provider with [mock = false], or, when the provider throws, the
    status 500 with the message of its error. *)
Theorem transcribe_real_answer (env : Env) (whisper : string -> Res string)
    (file : UploadedFile) (fs : gset string) :
  path file ∈ fs -> no_whisper_key env = false ->
  fst (transcribe env whisper (Some file) fs) =
    match whisper (path file +:+ ".webm") with
    | Ok text => Transcript text false
    | Throw e => TranscriptionFailed e
    end.
Proof.
  intros Hin Hkey. now rewrite (transcribe_real env whisper file fs Hin Hkey).
Qed.

Lemma transcribe_real_answer_witness :
  let env := mkEnv (Some "sk-live") None None None None None None None None in
  let file := mkFile "uploads/3f2a" "memo.webm" 2048 in
  fst (transcribe env (fun _ => Ok "call the doctor") (Some file)
         {["uploads/3f2a"]})
  = Transcript "call the doctor" false.
Proof.
  intros env file.
  apply (transcribe_real_answer env (fun _ => Ok "call the doctor") file
           {["uploads/3f2a"]}).
  - vm_compute. reflexivity.
  - reflexivity.
Defined.

(** When the upload is not on disk, every transcription fails with the
    status 500, with or without a key and without regard to the
    provider, and no file but a stale renamed copy is touched. *)
Theorem transcribe_upload_missing (env : Env) (whisper : string -> Res string)
    (file : UploadedFile) (fs : gset string) :
  path file ∉ fs ->
  (exists message,
     fst (transcribe env whisper (Some file) fs) = TranscriptionFailed message)
  /\ (forall whisper',
        transcribe env whisper' (Some file) fs
        = transcribe env whisper (Some file) fs)
  /\ (forall p, p <> path file +:+ ".webm" ->
        (p ∈ snd (transcribe env whisper (Some file) fs) <-> p ∈ fs)).
Proof.
  intros Hout. unfold transcribe, unlinkSync, renameSync.
  rewrite (existsSync_false _ _ Hout).
  destruct (no_whisper_key env).
  - unfold transcribe_catch. rewrite (existsSync_false _ _ Hout). cbn.
    split; [eexists; reflexivity|]. split; [reflexivity|]. reflexivity.
  - unfold transcribe_catch, unlinkSync.
    rewrite renamed_truthy, (existsSync_false _ _ Hout). cbn.
    split; [eexists; reflexivity|]. split; [reflexivity|].
    intros p Hp. destruct (existsSync (path file +:+ ".webm") fs); cbn;
      [set_solver|reflexivity].
Qed.

Lemma transcribe_upload_missing_witness :
  let env := mkEnv (Some "sk-live") None None None None None None None None in
  let file := mkFile "uploads/3f2a" "memo.webm" 2048 in
  exists message,
    fst (transcribe env (fun _ => Ok "hello") (Some file) ∅)
    = TranscriptionFailed message.
Proof.
  intros env file.
  apply (transcribe_upload_missing env (fun _ => Ok "hello") file ∅).
  apply not_elem_of_empty.
Defined.

(** ** Completing, rescheduling and saving, and the queries of the scan *)

Section PatchHandlers.

Variables (env : Env) (w : World).

Hypothesis supabase_configured : supabase env = true.

Lemma patch_handler_existing (patch : Reminder -> Reminder) (id : string)
    (s : State) (r : Reminder) :
  db s !! id = Some r ->
  patch_handler env w patch id s =
    (ReminderJson (id, patch r), mkState (<[id := patch r]> (db s)) (calls s)).
Proof.
  intros Hr.
  unfold patch_handler, try_catch, bind, lift, supabase_update_single,
    Store.update.
  rewrite supabase_configured. cbn. rewrite Hr. cbn.
  now rewrite (alter_lookup_insert _ _ r).
Qed.

Lemma patch_handler_unknown (patch : Reminder -> Reminder) (id : string)
    (s : State) :
  db s !! id = None ->
  patch_handler env w patch id s = (Failure 500 (no_row_error w), s).
Proof.
  intros Hr.
  unfold patch_handler, try_catch, bind, lift, throw, supabase_update_single.
  rewrite supabase_configured. cbn. now rewrite Hr.
Qed.

End PatchHandlers.

(** Completing an existing reminder answers with its row and sets its
    column completed to true; every other column of the row, every other
    row and the providers are left alone. *)
Theorem complete_marks_completed (env : Env) (w : World) (id : string)
    (s : State) (r : Reminder) :
  supabase env = true ->
  db s !! id = Some r ->
  exists r',
    complete env w id s =
      (ReminderJson (id, r'), mkState (<[id := r']> (db s)) (calls s))
    /\ completed r' = true
    /\ sent r' = sent r
    /\ scheduled_for r' = scheduled_for r
    /\ last_followup_sent r' = last_followup_sent r
    /\ followup_count r' = followup_count r
    /\ tasks r' = tasks r
    /\ transcript r' = transcript r
    /\ email_draft r' = email_draft r
    /\ email r' = email r
    /\ phone_number r' = phone_number r
    /\ notification_methods r' = notification_methods r.
Proof.
  intros Hdb Hr. exists (set_completed r). split; [|repeat split].
  now apply patch_handler_existing.
Qed.

Lemma complete_marks_completed_witness :
  let s := Examples.store_of "r1" Examples.sent_reminder in
  exists r',
    complete Examples.env_full Examples.world_ok "r1" s =
      (ReminderJson ("r1", r'), mkState (<["r1" := r']> (db s)) (calls s))
    /\ completed r' = true /\ sent r' = true.
Proof.
  intros s.
  destruct (complete_marks_completed Examples.env_full Examples.world_ok "r1"
              s Examples.sent_reminder) as (r' & H & Hc & Hs & _).
  - reflexivity.
  - vm_compute. reflexivity.
  - exists r'. split; [exact H|]. split; [exact Hc|]. now rewrite Hs.
Defined.

(** Completing is idempotent: a second call on the same id gives the
    answer of the first and leaves the state the first one made, whether
    the id exists or not and whether the store is configured or not. *)
Theorem complete_idempotent (env : Env) (w : World) (id : string) (s : State) :
  complete env w id (snd (complete env w id s)) = complete env w id s.
Proof.
  unfold complete.
  destruct (supabase env) eqn:Hdb.
  - destruct (db s !! id) as [r|] eqn:Hr.
    + rewrite (patch_handler_existing env w Hdb set_completed id s r Hr).
      cbn [snd].
      rewrite (patch_handler_existing env w Hdb set_completed id _
                 (set_completed r)) by apply lookup_insert_eq.
      cbn [db calls]. now rewrite insert_insert_eq.
    + rewrite (patch_handler_unknown env w Hdb set_completed id s Hr).
      cbn [snd]. now apply patch_handler_unknown.
  - unfold patch_handler, try_catch, ret. now rewrite Hdb.
Qed.

(** After a reschedule to [newScheduledFor] the due query selects the
    reminder exactly in the scans at or after that instant, whether the
    reminder was completed or not, and the follow-up query does not
    select it. *)
Theorem reschedule_reactivates (env : Env) (w : World) (id : string)
    (newScheduledFor : Z) (s : State) (r : Reminder) :
  supabase env = true ->
  db s !! id = Some r ->
  let s' := snd (reschedule env w id newScheduledFor s) in
  (forall now,
     (exists r', In (id, r') (Store.select (due_query now) (db s')))
     <-> newScheduledFor <= now)
  /\ (forall now r', ~ In (id, r') (Store.select (followup_query now) (db s'))).
Proof.
  intros Hdb Hr. unfold reschedule.
  rewrite (patch_handler_existing env w Hdb _ id s r Hr). cbn [snd db].
  split.
  - intros now. split.
    + intros (r' & Hin). apply select_In in Hin as [Hk Hm].
      rewrite lookup_insert_eq in Hk. injection Hk as <-.
      now apply due_query_matches in Hm as [_ Hm].
    + intros Hnow. exists (set_rescheduled newScheduledFor r).
      apply select_In. split; [apply lookup_insert_eq|].
      apply due_query_matches. now split.
  - intros now r' Hin. apply select_In in Hin as [Hk Hm].
    rewrite lookup_insert_eq in Hk. injection Hk as <-.
    apply followup_query_matches in Hm as [Hs _]. discriminate Hs.
Qed.

Lemma reschedule_reactivates_witness :
  let r := set_completed Examples.sent_reminder in
  let s' := snd (reschedule Examples.env_full Examples.world_ok "r1" 9000
                   (Examples.store_of "r1" r)) in
  exists r', In ("r1", r') (Store.select (due_query 9000) (db s')).
Proof.
  intros r s'.
  destruct (reschedule_reactivates Examples.env_full Examples.world_ok "r1"
              9000 (Examples.store_of "r1" r) r) as [Hdue _].
  - reflexivity.
  - vm_compute. reflexivity.
  - apply Hdue. lia.
Defined.

(** A saved reminder is stored under the key the store gives it, no
    other row changes, the due query selects it exactly in the scans at
    or after its [scheduledFor], and the follow-up query does not select
    it. *)
Theorem create_then_due (env : Env) (id : string) (body : Request.Body)
    (s : State) :
  supabase env = true ->
  let s' := snd (create_reminder env None id body s) in
  fst (create_reminder env None id body s) = ReminderJson (id, inserted_row body)
  /\ calls s' = calls s
  /\ (forall k, k <> id -> db s' !! k = db s !! k)
  /\ (forall now,
        In (id, inserted_row body) (Store.select (due_query now) (db s'))
        <-> Request.scheduledFor body <= now)
  /\ (forall now r', ~ In (id, r') (Store.select (followup_query now) (db s'))).
Proof.
  intros Hdb.
  unfold create_reminder, try_catch, bind, lift, ret, supabase_insert_single.
  rewrite Hdb. cbn.
  split; [reflexivity|]. split; [reflexivity|]. split; [|split].
  - intros k Hk. now rewrite lookup_insert_ne.
  - intros now. rewrite select_In, lookup_insert_eq, due_query_matches. cbn.
    intuition.
  - intros now r' Hin. apply select_In in Hin as [Hk Hm].
    rewrite lookup_insert_eq in Hk. injection Hk as <-.
    apply followup_query_matches in Hm as [Hs _]. discriminate Hs.
Qed.

Lemma create_then_due_witness :
  let body := Request.mkBody (Some "ann@example.com") (Some "") "call the doctor"
                None (Some "Do not forget") 1000 None in
  let s' := snd (create_reminder Examples.env_full None "r7" body
                   (Examples.store_of "r1" Examples.sent_reminder)) in
  In ("r7", inserted_row body) (Store.select (due_query 1000) (db s'))
  /\ db s' !! "r1" = Some Examples.sent_reminder.
Proof.
  intros body s'.
  destruct (create_then_due Examples.env_full "r7" body
              (Examples.store_of "r1" Examples.sent_reminder))
    as (_ & _ & Hother & Hdue & _).
  - reflexivity.
  - split.
    + apply Hdue. cbn. lia.
    + fold s'. rewrite Hother by discriminate. vm_compute. reflexivity.
Defined.

(** ** The number given to the SMS provider *)

Lemma strip_all_digits (p : string) : all_digits (Js.strip_non_digits p) = true.
Proof.
  induction p as [|c p IH]; [reflexivity|].
  cbn [Js.strip_non_digits]. destruct (Js.is_digit c) eqn:Hc; [|exact IH].
  cbn [all_digits]. now rewrite Hc, IH.
Qed.

(** For a phone number that is set, the number the due loop gives to the
    SMS provider is a plus sign, the digit 1 and then digits only. *)
Theorem formatPhone_shape (phone : option string) :
  Js.truthy phone = true ->
  exists digits,
    formatPhone phone = "+1" +:+ digits /\ all_digits digits = true.
Proof.
  intros Hphone. unfold formatPhone. rewrite Hphone. cbn [negb].
  pose proof (strip_all_digits (Js.or_else phone "")) as Hd.
  destruct (Js.strip_non_digits (Js.or_else phone "")) as [|c d] eqn:Hstrip.
  - exists "". now split.
  - cbn [Js.startsWith1]. destruct (Ascii.eqb_spec c "1"%char) as [->|Hc].
    + exists d. split; [reflexivity|]. cbn [all_digits] in Hd.
      now apply andb_true_iff in Hd as [_ Hd].
    + exists (String c d). now split.
Qed.

Lemma formatPhone_shape_witness :
  exists digits,
    formatPhone (Some "(555) 123-4567") = "+1" +:+ digits
    /\ all_digits digits = true.
Proof. apply formatPhone_shape. reflexivity. Defined.

(** ** What a scan leaves of the table *)

Section Frame.

Lemma rows_related_refl (R : Reminder -> Reminder -> Prop)
    (m : gmap string Reminder) :
  (forall r, R r r) -> rows_related R m m.
Proof. intros HR k. destruct (m !! k); [apply HR|exact I]. Qed.

Lemma rows_related_trans (R : Reminder -> Reminder -> Prop)
    (m1 m2 m3 : gmap string Reminder) :
  (forall a b c, R a b -> R b c -> R a c) ->
  rows_related R m1 m2 -> rows_related R m2 m3 -> rows_related R m1 m3.
Proof.
  intros HR H12 H23 k. specialize (H12 k). specialize (H23 k).
  destruct (m1 !! k), (m2 !! k), (m3 !! k); try tauto. now apply (HR _ r0).
Qed.

Lemma rows_related_weaken (R R' : Reminder -> Reminder -> Prop)
    (m m' : gmap string Reminder) :
  (forall a b, R a b -> R' a b) -> rows_related R m m' -> rows_related R' m m'.
Proof.
  intros HR H k. specialize (H k).
  destruct (m !! k), (m' !! k); try tauto. now apply HR.
Qed.

Lemma rows_related_update (R : Reminder -> Reminder -> Prop)
    (patch : Reminder -> Reminder) (id : string) (m : gmap string Reminder) :
  (forall r, R r r) -> (forall r, R r (patch r)) ->
  rows_related R m (Store.update patch id m).
Proof.
  intros Hrefl Hpatch k. unfold Store.update.
  destruct (decide (id = k)) as [<-|Hne].
  - rewrite lookup_alter_eq. destruct (m !! id); [apply Hpatch|exact I].
  - rewrite lookup_alter_ne by exact Hne. destruct (m !! k); [apply Hrefl|exact I].
Qed.

Lemma scan_keeps_refl (r : Reminder) : scan_keeps r r.
Proof. repeat split. tauto. Qed.

Lemma scan_keeps_trans (a b c : Reminder) :
  scan_keeps a b -> scan_keeps b c -> scan_keeps a c.
Proof.
  unfold scan_keeps, same_fixed_columns.
  intros (Hab & Hsab) (Hbc & Hsbc). split; [|tauto].
  repeat split; etransitivity; (try apply Hbc); apply Hab.
Qed.

Lemma due_keeps_refl (r : Reminder) : due_keeps r r.
Proof. split; [apply scan_keeps_refl|now split]. Qed.

Lemma due_keeps_trans (a b c : Reminder) :
  due_keeps a b -> due_keeps b c -> due_keeps a c.
Proof.
  intros (Hab & Hl1 & Hc1) (Hbc & Hl2 & Hc2).
  split; [now apply (scan_keeps_trans a b)|]. split; congruence.
Qed.

Lemma due_keeps_set_sent (r : Reminder) : due_keeps r (set_sent r).
Proof. repeat split. Qed.

Lemma scan_keeps_set_followup (t c : Z) (r : Reminder) :
  scan_keeps r (set_followup t c r).
Proof. repeat split. tauto. Qed.

Variables (env : Env) (w : World).

(** The due loop writes the column [sent] and nothing else. *)
Lemma due_loop_keeps (rows : list Row) (acc : list ResultEntry) (s : State) :
  rows_related due_keeps (db s) (db (snd (due_loop env w rows acc s))).
Proof.
  revert acc s. induction rows as [|[k r] rows IH]; intros acc s.
  - apply rows_related_refl, due_keeps_refl.
  - cbn [due_loop].
    destruct (due_iteration env w acc (k, r) s) as [acc1 s1] eqn:Hit.
    apply (rows_related_trans _ _ (db s1)); [apply due_keeps_trans| |apply IH].
    destruct (due_iteration_cases env w acc k r s)
      as [(evs & Heq & _)|(msg & evs & Heq & _)];
      rewrite Heq in Hit; injection Hit as <- <-; cbn [db].
    + apply rows_related_update; [apply due_keeps_refl|apply due_keeps_set_sent].
    + apply rows_related_refl, due_keeps_refl.
Qed.

(** The follow-up loop writes the two follow-up columns and nothing
    else. *)
Lemma followup_loop_keeps (now : Z) (rows : list Row)
    (acc : list ResultEntry) (s : State) :
  rows_related scan_keeps (db s) (db (snd (followup_loop env w now rows acc s))).
Proof.
  revert acc s. induction rows as [|[k r] rows IH]; intros acc s.
  - apply rows_related_refl, scan_keeps_refl.
  - cbn [followup_loop].
    destruct (followup_iteration env w now acc (k, r) s) as [acc1 s1] eqn:Hit.
    apply (rows_related_trans _ _ (db s1)); [apply scan_keeps_trans| |apply IH].
    destruct (email_provider w (calls s) (followup_email env (k, r)))
      as [|msg] eqn:Hp.
    + rewrite (followup_iteration_delivered env w now _ _ _ _ Hp) in Hit.
      injection Hit as <- <-. cbn [db].
      apply rows_related_update;
        [apply scan_keeps_refl|apply scan_keeps_set_followup].
    + rewrite (followup_iteration_threw env w now _ _ _ _ _ Hp) in Hit.
      injection Hit as <- <-. apply rows_related_refl, scan_keeps_refl.
Qed.

Lemma followup_scan_keeps (now : Z) (acc : list ResultEntry) (s : State) :
  rows_related scan_keeps (db s) (db (snd (followup_scan env w now acc s))).
Proof.
  unfold followup_scan, supabase_select.
  destruct (followup_query_error w).
  - apply rows_related_refl, scan_keeps_refl.
  - apply followup_loop_keeps.
Qed.

End Frame.

(** A scan that runs both loops. *)
Lemma running_scan_keeps (env : Env) (w : World) (now : Z) (s : State) :
  supabase env = true -> resend env = true -> due_query_error w = None ->
  rows_related scan_keeps (db s) (db (snd (send_due env w now s))).
Proof.
  intros Hsb Hrs Hq.
  rewrite (send_due_unfold env w now Hsb Hrs s Hq). unfold after_due_scan.
  pose proof (due_loop_keeps env w (Store.select (due_query now) (db s)) [] s)
    as Hdue.
  destruct (due_loop env w _ [] s) as [results1 s1]. cbn [snd] in Hdue.
  pose proof (followup_scan_keeps env w now results1 s1) as Hfu.
  destruct (followup_scan env w now results1 s1) as [results s2].
  cbn [snd] in *.
  apply (rows_related_trans _ _ (db s1)); [apply scan_keeps_trans| |exact Hfu].
  apply (rows_related_weaken due_keeps); [|exact Hdue]. now intros a b [H _].
Qed.

(** A scan, whatever it answers, creates and deletes no row, writes none
    of the columns email, phone number, transcript, tasks, draft,
    scheduledFor, methods and completed, and never takes the mark sent
    off a row. *)
Theorem scan_frame (env : Env) (w : World) (now : Z) (s : State) :
  rows_related scan_keeps (db s) (db (snd (send_due env w now s))).
Proof.
  destruct (supabase env) eqn:Hsb; [destruct (resend env) eqn:Hrs|].
  - destruct (due_query_error w) as [e|] eqn:Hq.
    + rewrite (send_due_query_error env w now Hsb Hrs s e Hq).
      apply rows_related_refl, scan_keeps_refl.
    + now apply running_scan_keeps.
  - rewrite send_due_not_configured by now right.
    apply rows_related_refl, scan_keeps_refl.
  - rewrite send_due_not_configured by now left.
    apply rows_related_refl, scan_keeps_refl.
Qed.

(** A completed reminder gets no follow-up: a scan that answers with a
    report has no follow-up element for it, and leaves its follow-up
    columns and its completion as they were. *)
Theorem completed_never_followed_up (env : Env) (w : World) (now : Z)
    (s s' : State) (k : string) (r : Reminder) (n : nat)
    (results : list ResultEntry) :
  send_due env w now s = (Report n results, s') ->
  db s !! k = Some r -> completed r = true ->
  (forall e, In e results -> res_id e = k ->
     res_status e <> "followup_sent" /\ res_status e <> "followup_failed")
  /\ exists r',
       db s' !! k = Some r'
       /\ completed r' = true
       /\ last_followup_sent r' = last_followup_sent r
       /\ followup_count r' = followup_count r.
Proof.
  intros Hrun Hk Hdone.
  destruct (supabase env) eqn:Hsb;
    [|rewrite send_due_not_configured in Hrun by (now left); discriminate].
  destruct (resend env) eqn:Hrs;
    [|rewrite send_due_not_configured in Hrun by (now right); discriminate].
  destruct (due_query_error w) as [e|] eqn:Hq;
    [rewrite (send_due_query_error env w now Hsb Hrs s e Hq) in Hrun;
     discriminate|].
  rewrite (send_due_unfold env w now Hsb Hrs s Hq) in Hrun.
  unfold after_due_scan in Hrun.
  pose proof (due_loop_keeps env w (Store.select (due_query now) (db s)) [] s)
    as Hkeep.
  destruct (due_loop_summary env w (Store.select (due_query now) (db s)) [] s)
    as (results1 & s1 & Hloop & _ & Hall1 & _ & _).
  rewrite Hloop in Hrun, Hkeep. cbn [app snd] in Hrun, Hkeep.
  specialize (Hkeep k). rewrite Hk in Hkeep.
  destruct (db s1 !! k) as [r1|] eqn:Hk1; [|destruct Hkeep].
  destruct Hkeep as ((Hfixed & _) & Hlast & Hcount).
  assert (Hdone1 : completed r1 = true).
  { destruct Hfixed as (_ & _ & _ & _ & _ & _ & _ & Hc). congruence. }
  assert (Hnot : ~ In k (map fst (Store.select (followup_query now) (db s1)))).
  { intros Hin. apply in_map_iff in Hin as ([k' r'] & Heq & Hin).
    cbn in Heq. subst k'. apply select_In in Hin as [Hk' Hm].
    apply followup_query_matches in Hm as (_ & Hc & _). congruence. }
  assert (Hdue_status : forall e, In e results1 ->
            res_status e <> "followup_sent" /\ res_status e <> "followup_failed").
  { intros e He. apply due_entry_status. rewrite Forall_forall in Hall1.
    apply Hall1. now apply list_elem_of_In. }
  unfold followup_scan, supabase_select in Hrun.
  destruct (followup_query_error w) as [e|].
  - injection Hrun as _ <- <-. split; [intros e0 He0 _; now apply Hdue_status|].
    exists r1. repeat split; assumption.
  - destruct (followup_loop_summary env w now
                (Store.select (followup_query now) (db s1)) results1 s1)
      as (more & s2 & Hfloop & Hids & _ & _ & Hdb & _).
    rewrite Hfloop in Hrun. injection Hrun as _ <- <-. split.
    + intros e0 He0 Hid. apply in_app_iff in He0 as [He0|He0];
        [now apply Hdue_status|].
      exfalso. apply Hnot. rewrite <- Hids, <- Hid. now apply in_map.
    + exists r1. rewrite (Hdb k Hnot). repeat split; assumption.
Qed.

Lemma completed_never_followed_up_witness :
  let r := set_completed Examples.sent_reminder in
  let now := 1000 + 3 * followUpDelay in
  exists r',
    db (snd (send_due Examples.env_full Examples.world_ok now
               (Examples.store_of "r1" r))) !! "r1" = Some r'
    /\ followup_count r' = Some 1.
Proof.
  intros r now.
  destruct (send_due Examples.env_full Examples.world_ok now
              (Examples.store_of "r1" r)) as [resp s'] eqn:Hrun.
  assert (Hresp : resp = Report 0 []).
  { apply (f_equal fst) in Hrun. cbn [fst] in Hrun. rewrite <- Hrun.
    vm_compute. reflexivity. }
  subst resp.
  destruct (completed_never_followed_up Examples.env_full Examples.world_ok
              now (Examples.store_of "r1" r) s' "r1" r 0 [] Hrun)
    as (_ & r' & Hr' & _ & _ & Hcount).
  - vm_compute. reflexivity.
  - reflexivity.
  - exists r'. split; [exact Hr'|]. rewrite Hcount. reflexivity.
Defined.

(** ** Scans in a world that delivers *)

Section Delivering.

Variables (env : Env) (w : World).

Hypothesis email_delivers : forall history m, email_provider w history m = Delivered.
Hypothesis sms_delivers : forall history m, sms_provider w history m = Delivered.


End Delivering.




(** ** The calls of the follow-up part *)

Section FollowUpCalls.

Variables (env : Env) (w : World) (now : Z).

Lemma followup_loop_calls (rows : list Row) (acc : list ResultEntry)
    (s : State) :
  exists more evs,
    fst (followup_loop env w now rows acc s) = (acc ++ more)%list
    /\ calls (snd (followup_loop env w now rows acc s)) = (calls s ++ evs)%list
    /\ Forall is_followup_call evs
    /\ length evs = length more.
Proof.
  revert acc s. induction rows as [|[k r] rows IH]; intros acc s.
  - exists [], []. cbn. rewrite !app_nil_r. repeat split. apply Forall_nil_2.
  - cbn [followup_loop].
    destruct (followup_iteration env w now acc (k, r) s) as [acc1 s1] eqn:Hit.
    assert (Hstep : exists e ev,
              acc1 = (acc ++ [e])%list /\ calls s1 = (calls s ++ [ev])%list
              /\ is_followup_call ev).
    { destruct (email_provider w (calls s) (followup_email env (k, r)))
        as [|msg] eqn:Hp.
      - rewrite (followup_iteration_delivered env w now _ _ _ _ Hp) in Hit.
        injection Hit as <- <-. eexists _, _. repeat split.
      - rewrite (followup_iteration_threw env w now _ _ _ _ _ Hp) in Hit.
        injection Hit as <- <-. eexists _, _. repeat split. }
    destruct Hstep as (e & ev & -> & Hc1 & Hev).
    destruct (IH (acc ++ [e])%list s1) as (more & evs & Hres & Hc & Hall & Hlen).
    exists (e :: more), (ev :: evs).
    rewrite Hres, Hc, Hc1, <- !app_assoc. repeat split.
    + now constructor.
    + cbn. now rewrite Hlen.
Qed.

End FollowUpCalls.

(** The follow-up part of a scan calls the e-mail provider once for each
    element it pushes, with the follow-up subject, and never calls the
    SMS provider, whatever the methods of the reminders are. *)
Theorem followups_are_emails (env : Env) (w : World) (now : Z)
    (acc : list ResultEntry) (s : State) :
  exists more evs,
    fst (followup_scan env w now acc s) = (acc ++ more)%list
    /\ calls (snd (followup_scan env w now acc s)) = (calls s ++ evs)%list
    /\ Forall is_followup_call evs
    /\ length evs = length more.
Proof.
  unfold followup_scan, supabase_select.
  destruct (followup_query_error w).
  - exists [], []. cbn. rewrite !app_nil_r. repeat split. apply Forall_nil_2.
  - apply followup_loop_calls.
Qed.

(** ** Saved reminders in the scan *)





(** ** The first reminder and the follow-up in one scan *)



(** ** A failing SMS after a delivered e-mail *)

Section Calls.

Variables (env : Env) (w : World).

(** The iteration of one row inside the due loop, with the calls made
    before it and after it. *)
Lemma due_loop_row_calls (rows : list Row) (acc : list ResultEntry) (s : State)
    (k : string) (r : Reminder) :
  NoDup (map fst rows) -> In (k, r) rows ->
  exists acc1 sA evsA evsB,
    db sA !! k = db s !! k
    /\ calls sA = (calls s ++ evsA)%list
    /\ db (snd (due_loop env w rows acc s)) !! k
       = db (snd (due_iteration env w acc1 (k, r) sA)) !! k
    /\ calls (snd (due_loop env w rows acc s))
       = (calls (snd (due_iteration env w acc1 (k, r) sA)) ++ evsB)%list.
Proof.
  revert acc s. induction rows as [|[k0 r0] rows IH]; intros acc s Hnd Hin.
  - destruct Hin.
  - cbn in Hnd. apply NoDup_cons in Hnd as [Hk0 Hnd].
    rewrite list_elem_of_In in Hk0.
    destruct Hin as [Heq|Hin].
    + injection Heq as -> ->. cbn [due_loop].
      destruct (due_iteration env w acc (k, r) s) as [acc2 s2] eqn:Hit.
      destruct (due_loop_summary env w rows acc2 s2)
        as (more & s' & Hloop & _ & _ & (evs & Hc) & Hdb).
      exists acc, s, [], evs. rewrite Hit, Hloop, app_nil_r. cbn [snd].
      repeat split; [now apply Hdb|exact Hc].
    + assert (Hne : k0 <> k).
      { intros ->. apply Hk0. change k with (fst (k, r)). now apply in_map. }
      cbn [due_loop].
      destruct (due_iteration_summary env w acc k0 r0 s)
        as (e0 & s0 & Hit & _ & _ & (evs0 & Hc0) & Hdb0).
      rewrite Hit.
      destruct (IH (acc ++ [e0])%list s0 Hnd Hin)
        as (acc1 & sA & evsA & evsB & HdbA & HcA & Hdb & Hc).
      exists acc1, sA, (evs0 ++ evsA)%list, evsB.
      repeat split; try assumption.
      * rewrite HdbA. apply Hdb0. congruence.
      * now rewrite HcA, Hc0, <- app_assoc.
Qed.

Hypothesis supabase_configured : supabase env = true.
Hypothesis resend_configured : resend env = true.
Hypothesis due_query_answers : due_query_error w = None.
Hypothesis email_delivers : forall history m, email_provider w history m = Delivered.
Hypothesis sms_throws : forall history m, exists msg, sms_provider w history m = Threw msg.

(** One scan over a due reminder that asks for both channels. *)
Lemma scan_with_failing_sms (now : Z) (s : State) (k : string) (r : Reminder) :
  db s !! k = Some r -> sent r = false -> scheduled_for r <= now ->
  wants_email r = true -> wants_sms env r = true ->
  exists evs,
    calls (snd (send_due env w now s)) = (calls s ++ evs)%list
    /\ In (EmailCall (reminder_email r) Delivered) evs
    /\ db (snd (send_due env w now s)) !! k = Some r.
Proof.
  intros Hk Hsent Hdue He Hs.
  rewrite (send_due_unfold env w now supabase_configured resend_configured s
             due_query_answers).
  unfold after_due_scan.
  assert (Hin : In (k, r) (Store.select (due_query now) (db s))).
  { apply select_In. split; [exact Hk|]. now apply due_query_matches. }
  destruct (due_loop_row_calls _ [] s k r (select_NoDup _ _) Hin)
    as (acc1 & sA & evsA & evsB & HdbA & HcA & Hdb & Hc).
  destruct (sms_throws (calls sA ++ [EmailCall (reminder_email r) Delivered])%list
              (reminder_sms env r)) as [msg Hmsg].
  assert (Hit : due_iteration env w acc1 (k, r) sA =
            ((acc1 ++ [mkResult k "failed" (Some msg)])%list,
             mkState (db sA)
               ((calls sA ++ [EmailCall (reminder_email r) Delivered])
                ++ [SmsCall (reminder_sms env r) (Threw msg)])%list)).
  { unfold_block. rewrite He, Hs. cbv beta iota zeta. rewrite email_delivers.
    cbv beta iota zeta. cbn [calls db]. now rewrite Hmsg. }
  rewrite Hit in Hdb, Hc. cbn [snd db calls] in Hdb, Hc.
  destruct (due_loop env w _ [] s) as [results1 s1]. cbn [snd] in Hdb, Hc.
  destruct (followup_scan_summary env w now results1 s1)
    as (more & s' & Hscan & _ & (evs3 & Hc3) & _ & Hkeep).
  rewrite Hscan. cbn [snd].
  exists (evsA ++ [EmailCall (reminder_email r) Delivered]
          ++ [SmsCall (reminder_sms env r) (Threw msg)] ++ evsB ++ evs3)%list.
  split; [|split].
  - rewrite Hc3, Hc, HcA. now rewrite <- !app_assoc.
  - rewrite !in_app_iff. right. left. now left.
  - apply Hkeep; [|exact Hsent]. now rewrite Hdb, HdbA.
Qed.

End Calls.

(** When the e-mail of a due reminder is delivered and its SMS throws,
    the reminder stays unsent, so the next scan sends the same e-mail
    again: with an e-mail provider that delivers and an SMS provider that
    throws, two scans in a row each call the e-mail provider with the
    reminder e-mail, and the row is still as it was. *)
Theorem failing_sms_repeats_email (env : Env) (w : World) (now now' : Z)
    (s : State) (k : string) (r : Reminder) :
  supabase env = true -> resend env = true -> due_query_error w = None ->
  (forall history m, email_provider w history m = Delivered) ->
  (forall history m, exists msg, sms_provider w history m = Threw msg) ->
  db s !! k = Some r -> sent r = false -> scheduled_for r <= now ->
  now <= now' ->
  wants_email r = true -> wants_sms env r = true ->
  let s1 := snd (send_due env w now s) in
  let s2 := snd (send_due env w now' s1) in
  exists evs1 evs2,
    calls s1 = (calls s ++ evs1)%list
    /\ calls s2 = (calls s1 ++ evs2)%list
    /\ In (EmailCall (reminder_email r) Delivered) evs1
    /\ In (EmailCall (reminder_email r) Delivered) evs2
    /\ db s2 !! k = Some r.
Proof.
  intros Hsb Hrs Hq Hemail Hsms Hk Hsent Hdue Hlater He Hs s1 s2.
  destruct (scan_with_failing_sms env w Hsb Hrs Hq Hemail Hsms now s k r
              Hk Hsent Hdue He Hs) as (evs1 & Hc1 & Hin1 & Hk1).
  destruct (scan_with_failing_sms env w Hsb Hrs Hq Hemail Hsms now' s1 k r
              Hk1 Hsent ltac:(lia) He Hs) as (evs2 & Hc2 & Hin2 & Hk2).
  exists evs1, evs2. repeat split; assumption.
Qed.

Lemma failing_sms_repeats_email_witness :
  let w := mkWorld (fun _ _ => Delivered) (fun _ _ => Threw "sms rejected")
             None None "no row returned" in
  let r := mkReminder (Some "ann@example.com") (Some "555-123-4567")
             "call the doctor" None (Some "Do not forget") 1000
             (Some ["email"; "sms"]) false false None (Some 0) in
  let s1 := snd (send_due Examples.env_full w 2000 (Examples.store_of "r1" r)) in
  let s2 := snd (send_due Examples.env_full w 3000 s1) in
  exists evs1 evs2,
    calls s1 = evs1
    /\ calls s2 = (calls s1 ++ evs2)%list
    /\ In (EmailCall (reminder_email r) Delivered) evs1
    /\ In (EmailCall (reminder_email r) Delivered) evs2
    /\ db s2 !! "r1" = Some r.
Proof.
  intros w r s1 s2.
  destruct (failing_sms_repeats_email Examples.env_full w 2000 3000
              (Examples.store_of "r1" r) "r1" r)
    as (evs1 & evs2 & H1 & H2 & H3 & H4 & H5).
  - reflexivity.
  - reflexivity.
  - reflexivity.
  - reflexivity.
  - intros history m. exists "sms rejected". reflexivity.
  - vm_compute. reflexivity.
  - reflexivity.
  - cbn. lia.
  - lia.
  - reflexivity.
  - reflexivity.
  - exists evs1, evs2. repeat split; assumption.
Defined.
